(** * The execution step of the assessment tool's web client

    A shallow embedding of
    [databricks_app/frontend/src/components/ExecutionStep.jsx] (the React
    component that starts a run, follows it over a WebSocket and shows its
    progress) and of [loadReportsList] of the results view.

    The component's [useState] cells are the fields of one record; every
    handler is a function from that record to the next one.  What a handler
    sends out (the start request, the socket it opens, the [onNext] callback
    it schedules) is appended to the record's [effects]. *)

From Stdlib Require Import ZArith Ascii.
From stdpp Require Import base list strings pretty.

Local Open Scope string_scope.
Local Open Scope list_scope.

(** ** JavaScript values

    [JSON.parse(event.data)] yields records whose fields may hold any JSON
    value, or be absent ([undefined]).  The component never computes with
    them: it compares them with string literals ([===]), tests them for
    truthiness ([data.log ? ... : ...], [detail || '...']) and stores them.
    Numbers are kept as integers and every object or array is one opaque
    value; both are only ever tested for truthiness. *)

Inductive jsval : Type :=
  | JUndefined
  | JNull
  | JBool (b : bool)
  | JNum (n : Z)
  | JStr (s : string)
  | JObject.

#[global] Instance jsval_eq_dec : EqDecision jsval.
Proof. solve_decision. Defined.

(** [v ? a : b] and [v || d] take the first branch when [v] is truthy. *)
Definition truthy (v : jsval) : bool :=
  match v with
  | JUndefined | JNull => false
  | JBool b => b
  | JNum n => negb (n =? 0)%Z
  | JStr s => negb (String.eqb s "")
  | JObject => true
  end.

(** [v === 'lit'] for a string literal. *)
Definition str_eq (v : jsval) (lit : string) : bool :=
  match v with
  | JStr s => String.eqb s lit
  | _ => false
  end.

(** [Array.prototype.findIndex]; [None] stands for [-1]. *)
Fixpoint findIndex {A : Type} (p : A → bool) (l : list A) : option nat :=
  match l with
  | [] => None
  | x :: l' => if p x then Some 0 else S <$> findIndex p l'
  end.

(** ** Steps and events *)

(** One entry of [executionSteps]: [{ name, status, message, logs }]. *)
Module Step.
Record t : Type := mk {
  name : string;
  status : jsval;
  message : jsval;
  logs : list jsval;
}.
End Step.

#[global] Instance step_eq_dec : EqDecision Step.t.
Proof. solve_decision. Defined.

(** One parsed WebSocket message: [{ type, step, status, message, log }];
    a field the server left out is [JUndefined]. *)
Module Data.
Record t : Type := mk {
  type : jsval;
  step : jsval;
  status : jsval;
  message : jsval;
  log : jsval;
}.
End Data.

(** The predicate both updaters hand to [findIndex]. *)
Definition step_matches (data : Data.t) (step : Step.t) : bool :=
  (str_eq (Data.step data) "terraform"
     && String.eqb (Step.name step) "Terraform Export")
  || (str_eq (Data.step data) "agents"
     && String.eqb (Step.name step) "AI Agents Analysis").

(** The updater of the ['status'] branch:
    [{...updated[i], status, message, logs: data.log ? [...logs, data.log] : logs}]. *)
Definition status_update (data : Data.t) (s : Step.t) : Step.t :=
  Step.mk (Step.name s) (Data.status data) (Data.message data)
    (if truthy (Data.log data) then Step.logs s ++ [Data.log data]
     else Step.logs s).

Definition status_updater (data : Data.t) (prev : list Step.t) : list Step.t :=
  match findIndex (step_matches data) prev with
  | Some stepIndex => alter (status_update data) stepIndex prev
  | None => prev
  end.

(** The updater of the ['log'] branch:
    [{...updated[i], logs: [...logs, data.message]}]. *)
Definition log_update (data : Data.t) (s : Step.t) : Step.t :=
  Step.mk (Step.name s) (Step.status s) (Step.message s)
    (Step.logs s ++ [Data.message data]).

Definition log_updater (data : Data.t) (prev : list Step.t) : list Step.t :=
  match findIndex (step_matches data) prev with
  | Some stepIndex => alter (log_update data) stepIndex prev
  | None => prev
  end.

(** ** The component's state *)

(** The [options] cell. *)
Record Options : Type := mkOptions {
  runTerraform : bool;
  runAgents : bool;
  terraformServices : list string;
  terraformListing : list string;
  terraformDebug : bool;
  selectedAgents : list string;
  reportLanguage : string;
}.

(** The initial value handed to [useState]. *)
Definition initialOptions : Options :=
  mkOptions true true
    ["groups"; "users"; "compute"; "jobs"; "notebooks"; "repos"; "access";
     "secrets"; "storage"; "sql-endpoints"; "dashboards"]
    ["compute"; "jobs"; "notebooks"; "sql-endpoints"]
    false
    ["terraform_reader"; "ucx_analyst"; "report_generator"]
    "pt-BR".

(** The body of [api.post('api/execute/start', ...)]. *)
Record StartRequest : Type := mkStartRequest {
  run_terraform : bool;
  run_agents : bool;
  terraform_services : string;
  terraform_listing : string;
  terraform_debug : bool;
  selected_agents : string;
  report_language : string;
}.

(** What the handlers send out of the component. *)
Inductive Effect : Type :=
  | ConnectWebSocket
  | PostStart (req : StartRequest)
  | ScheduleOnNext
  | CallOnNext.

(** One entry of the listing returned by [api/results/list]. *)
Module Report.
Record t : Type := mk {
  agent : string;
  filename : string;
  exists_ : bool;
}.
End Report.

(** An awaited HTTP call either resolves with data or rejects; [detail] is
    [error.response?.data?.detail] ([JUndefined] when there is none). *)
Inductive Response (A : Type) : Type :=
  | Resolved (data : A)
  | Rejected (detail : jsval).
Arguments Resolved {A} data.
Arguments Rejected {A} detail.

(** The [useState] cells ([ws] and [showLogs] hold no value the handlers
    below read), the number of live intervals created by [handleExecute],
    the number of start requests still awaited, and the effects so far. *)
Record State : Type := mkState {
  options : Options;
  executing : bool;
  executionSteps : list Step.t;
  error : jsval;
  elapsedTime : Z;
  startTime : option Z;
  hasExistingReports : bool;
  timers : nat;
  awaiting : nat;
  effects : list Effect;
}.

Definition initialState : State :=
  mkState initialOptions false [] JNull 0 None false 0 0 [].

Definition setOptions (o : Options) (st : State) : State :=
  mkState o (executing st) (executionSteps st) (error st) (elapsedTime st)
    (startTime st) (hasExistingReports st) (timers st) (awaiting st) (effects st).

Definition setExecuting (b : bool) (st : State) : State :=
  mkState (options st) b (executionSteps st) (error st) (elapsedTime st)
    (startTime st) (hasExistingReports st) (timers st) (awaiting st) (effects st).

Definition setExecutionSteps (f : list Step.t → list Step.t) (st : State) : State :=
  mkState (options st) (executing st) (f (executionSteps st)) (error st)
    (elapsedTime st) (startTime st) (hasExistingReports st) (timers st)
    (awaiting st) (effects st).

Definition setError (e : jsval) (st : State) : State :=
  mkState (options st) (executing st) (executionSteps st) e (elapsedTime st)
    (startTime st) (hasExistingReports st) (timers st) (awaiting st) (effects st).

Definition setElapsedTime (t : Z) (st : State) : State :=
  mkState (options st) (executing st) (executionSteps st) (error st) t
    (startTime st) (hasExistingReports st) (timers st) (awaiting st) (effects st).

Definition setStartTime (t : option Z) (st : State) : State :=
  mkState (options st) (executing st) (executionSteps st) (error st)
    (elapsedTime st) t (hasExistingReports st) (timers st) (awaiting st)
    (effects st).

Definition setHasExistingReports (b : bool) (st : State) : State :=
  mkState (options st) (executing st) (executionSteps st) (error st)
    (elapsedTime st) (startTime st) b (timers st) (awaiting st) (effects st).

Definition setTimers (n : nat) (st : State) : State :=
  mkState (options st) (executing st) (executionSteps st) (error st)
    (elapsedTime st) (startTime st) (hasExistingReports st) n (awaiting st)
    (effects st).

Definition setAwaiting (n : nat) (st : State) : State :=
  mkState (options st) (executing st) (executionSteps st) (error st)
    (elapsedTime st) (startTime st) (hasExistingReports st) (timers st) n
    (effects st).

Definition emit (e : Effect) (st : State) : State :=
  mkState (options st) (executing st) (executionSteps st) (error st)
    (elapsedTime st) (startTime st) (hasExistingReports st) (timers st)
    (awaiting st) (effects st ++ [e]).

(** ** Handlers *)

(** [checkExistingReports], run once on mount, given how
    [api.get('api/results/list')] ended. *)
Definition checkExistingReports (response : Response (list Report.t))
    (st : State) : State :=
  match response with
  | Resolved reports =>
      let existingReports := filter (λ r, Report.exists_ r = true) reports in
      if (0 <? length existingReports)%nat then setHasExistingReports true st
      else st
  | Rejected _ => st
  end.

(** [handleWebSocketMessage(data)]. *)
Definition handleWebSocketMessage (data : Data.t) (st : State) : State :=
  if str_eq (Data.type data) "status" then
    setExecutionSteps (status_updater data) st
  else if str_eq (Data.type data) "log" then
    setExecutionSteps (log_updater data) st
  else if str_eq (Data.type data) "completed" then
    emit ScheduleOnNext (setHasExistingReports true (setExecuting false st))
  else if str_eq (Data.type data) "error" then
    setExecuting false (setError (Data.message data) st)
  else if str_eq (Data.type data) "stopped" then
    setError (JStr "Execution stopped by user.") (setExecuting false st)
  else st.

(** [Array.prototype.includes] on a list of strings. *)
Definition includes (l : list string) (x : string) : bool :=
  existsb (String.eqb x) l.

(** [l.join(',')]. *)
Definition join (l : list string) : string := String.concat "," l.

(** The step list [handleExecute] builds from the options. *)
Definition build_steps (o : Options) : list Step.t :=
  (if runTerraform o
   then [Step.mk "Terraform Export" (JStr "pending") (JStr "") []] else [])
  ++ (if runAgents o
      then [Step.mk "AI Agents Analysis" (JStr "pending") (JStr "") []] else []).

(** [agentsToRun]. *)
Definition agentsToRun (o : Options) : list string :=
  if includes (selectedAgents o) "report_generator"
  then selectedAgents o
  else selectedAgents o ++ ["report_generator"].

Definition start_request (o : Options) : StartRequest :=
  mkStartRequest (runTerraform o) (runAgents o)
    (join (terraformServices o)) (join (terraformListing o))
    (terraformDebug o) (join (agentsToRun o)) (reportLanguage o).

(** [handleExecute] up to its [await]; [now] is what [Date.now()] returns. *)
Definition handleExecute (now : Z) (st : State) : State :=
  let o := options st in
  mkState o true (build_steps o) JNull 0 (Some now) false
    (S (timers st)) (S (awaiting st))
    (effects st ++ [ConnectWebSocket; PostStart (start_request o)]).

(** The [catch] block of [handleExecute], run when the awaited start
    request rejects: it clears this call's interval, shows
    [detail || 'Failed to start execution'] and leaves the executing state. *)
Definition handleExecute_catch (detail : jsval) (st : State) : State :=
  setExecuting false
    (setError (if truthy detail then detail
               else JStr "Failed to start execution")
       (setAwaiting (pred (awaiting st)) (setTimers (pred (timers st)) st))).

(** The callback of the interval [handleExecute] creates (lines 178-180):
    [t1] and [t2] are the two successive readings of [Date.now()]. *)
Definition handleExecute_timer (t1 t2 : Z) (st : State) : State :=
  setElapsedTime ((t1 - t2) / 1000) st.

(** The callback of the interval of the [useEffect] on
    [[executing, startTime]] (lines 205-212); the interval exists while
    [executing && startTime] holds. *)
Definition effect_timer_live (st : State) : bool :=
  executing st &&
  match startTime st with Some t => negb (t =? 0)%Z | None => false end.

Definition effect_timer (now : Z) (st : State) : State :=
  match startTime st with
  | Some t => setElapsedTime ((now - t) / 1000) st
  | None => st
  end.

(** ** What is rendered, and what the controls do *)

(** [allCompleted] (lines 243-245). *)
Definition allCompleted (st : State) : bool :=
  ((0 <? length (executionSteps st))%nat
   && forallb (λ step, str_eq (Step.status step) "completed") (executionSteps st))
  || hasExistingReports st.

(** The [disabled] attribute of the start control (line 608). *)
Definition start_disabled (st : State) : bool :=
  executing st
  || (negb (runTerraform (options st)) && negb (runAgents (options st))).

(** A checkbox over a list in [options]: ticking appends the entry,
    unticking filters it out; the box is ticked when the list includes it. *)
Definition toggle (l : list string) (x : string) : list string :=
  if includes l x then filter (λ s, s ≠ x) l else l ++ [x].

(** The entries the three checkbox groups and the language menu offer. *)
Definition service_choices : list string :=
  ["groups"; "users"; "compute"; "jobs"; "notebooks"; "repos"; "access";
   "secrets"; "storage"; "sql-endpoints"; "dashboards"; "alerts"; "queries";
   "policies"; "mounts"; "wsconf"; "directories"; "dlt"; "model-serving";
   "vector-search"; "uc-catalogs"; "uc-schemas"; "uc-tables"; "uc-volumes";
   "uc-external-locations"; "uc-storage-credentials"].

Definition listing_choices : list string :=
  ["compute"; "jobs"; "notebooks"; "sql-endpoints"; "dashboards"; "repos";
   "queries"; "alerts"; "directories"; "dlt"; "model-serving";
   "vector-search"; "uc-catalogs"; "uc-schemas"; "uc-tables"; "uc-volumes"].

(** Agent ids with their [locked] flag. *)
Definition agent_choices : list (string * bool) :=
  [("terraform_reader", false); ("ucx_analyst", false);
   ("report_generator", true)].

Definition agent_locked (id : string) : option bool :=
  snd <$> List.find (λ agent, String.eqb (fst agent) id) agent_choices.

Definition language_choices : list string := ["pt-BR"; "en-US"; "es-ES"].

Definition set_runTerraform (b : bool) (o : Options) : Options :=
  mkOptions b (runAgents o) (terraformServices o) (terraformListing o)
    (terraformDebug o) (selectedAgents o) (reportLanguage o).

Definition set_runAgents (b : bool) (o : Options) : Options :=
  mkOptions (runTerraform o) b (terraformServices o) (terraformListing o)
    (terraformDebug o) (selectedAgents o) (reportLanguage o).

Definition set_terraformServices (l : list string) (o : Options) : Options :=
  mkOptions (runTerraform o) (runAgents o) l (terraformListing o)
    (terraformDebug o) (selectedAgents o) (reportLanguage o).

Definition set_terraformListing (l : list string) (o : Options) : Options :=
  mkOptions (runTerraform o) (runAgents o) (terraformServices o) l
    (terraformDebug o) (selectedAgents o) (reportLanguage o).

Definition set_terraformDebug (b : bool) (o : Options) : Options :=
  mkOptions (runTerraform o) (runAgents o) (terraformServices o)
    (terraformListing o) b (selectedAgents o) (reportLanguage o).

Definition set_selectedAgents (l : list string) (o : Options) : Options :=
  mkOptions (runTerraform o) (runAgents o) (terraformServices o)
    (terraformListing o) (terraformDebug o) l (reportLanguage o).

Definition set_reportLanguage (s : string) (o : Options) : Options :=
  mkOptions (runTerraform o) (runAgents o) (terraformServices o)
    (terraformListing o) (terraformDebug o) (selectedAgents o) s.

(** Everything that can happen to the mounted component: the mount-time
    listing call ends, the user operates a control, a socket message
    arrives, the start request ends, an interval fires. *)
Inductive Action : Type :=
  | Mounted (response : Response (list Report.t))
  | ToggleRunTerraform
  | ToggleRunAgents
  | ToggleService (service : string)
  | ToggleListing (listing : string)
  | ToggleDebug
  | SelectLanguage (language : string)
  | ToggleAgent (id : string)
  | ClickStart (now : Z)
  | ClickRunAgain (now : Z)
  | ClickRetry (now : Z)
  | CloseError
  | Message (data : Data.t)
  | StartResolved
  | StartRejected (detail : jsval)
  | IntervalTick (t1 t2 : Z)
  | EffectTick (now : Z).

#[global] Instance StartRequest_eq_dec : EqDecision StartRequest.
Proof. solve_decision. Defined.

#[global] Instance Effect_eq_dec : EqDecision Effect.
Proof. solve_decision. Defined.

(** A control acts only when it is rendered and not disabled; a message
    needs a socket, which only [handleExecute] opens; a request can end
    only while it is awaited and an interval fire only while it exists. *)
Definition dispatch (a : Action) (st : State) : State :=
  let o := options st in
  match a with
  | Mounted response => checkExistingReports response st
  | ToggleRunTerraform =>
      if executing st then st
      else setOptions (set_runTerraform (negb (runTerraform o)) o) st
  | ToggleRunAgents =>
      if executing st then st
      else setOptions (set_runAgents (negb (runAgents o)) o) st
  | ToggleService service =>
      if executing st || negb (runTerraform o)
         || negb (includes service_choices service) then st
      else setOptions
             (set_terraformServices (toggle (terraformServices o) service) o) st
  | ToggleListing listing =>
      if executing st || negb (runTerraform o)
         || negb (includes listing_choices listing) then st
      else setOptions
             (set_terraformListing (toggle (terraformListing o) listing) o) st
  | ToggleDebug =>
      if executing st || negb (runTerraform o) then st
      else setOptions (set_terraformDebug (negb (terraformDebug o)) o) st
  | SelectLanguage language =>
      if executing st || negb (runAgents o)
         || negb (includes language_choices language) then st
      else setOptions (set_reportLanguage language o) st
  | ToggleAgent id =>
      match agent_locked id with
      | Some locked =>
          if executing st || negb (runAgents o) || locked then st
          else setOptions
                 (set_selectedAgents (toggle (selectedAgents o) id) o) st
      | None => st
      end
  | ClickStart now =>
      if start_disabled st then st
      else if allCompleted st then emit CallOnNext st
      else handleExecute now st
  | ClickRunAgain now =>
      if allCompleted st then handleExecute now st else st
  | ClickRetry now =>
      if truthy (error st) then handleExecute now (setError JNull st) else st
  | CloseError =>
      if truthy (error st) then setError JNull st else st
  | Message data =>
      if bool_decide (ConnectWebSocket ∈ effects st)
      then handleWebSocketMessage data st else st
  | StartResolved =>
      if (awaiting st =? 0)%nat then st else setAwaiting (pred (awaiting st)) st
  | StartRejected detail =>
      if (awaiting st =? 0)%nat then st else handleExecute_catch detail st
  | IntervalTick t1 t2 =>
      if (timers st =? 0)%nat then st else handleExecute_timer t1 t2 st
  | EffectTick now =>
      if effect_timer_live st then effect_timer now st else st
  end.

(** The state after a sequence of actions, oldest first. *)
Definition run (actions : list Action) (st : State) : State :=
  foldl (λ st a, dispatch a st) st actions.

(** The start request sent last, if any. *)
Definition last_request (st : State) : option StartRequest :=
  last (omap (λ e, match e with PostStart req => Some req | _ => None end)
          (effects st)).

(** The state after a sequence of socket messages, oldest first. *)
Definition receive (messages : list Data.t) (st : State) : State :=
  foldl (λ st data, handleWebSocketMessage data st) st messages.

(** ** The results view ([ResultsStep]) *)

Module ResultsStep.

Record State : Type := mkState {
  reports : list Report.t;
  selectedReport : option Report.t;
  report : jsval;
  loading : bool;
  error : jsval;
}.

Definition initialState : State := mkState [] None JNull true JNull.

(** [loadReport(filename)], given how the report request ended. *)
Definition loadReport (response : Response jsval) (st : State) : State :=
  match response with
  | Resolved data =>
      mkState (reports st) (selectedReport st) data false JNull
  | Rejected detail =>
      mkState (reports st) (selectedReport st) (report st) false
        (if truthy detail then detail else JStr "Failed to load report")
  end.

(** [loadReportsList()], given how the listing request ended and how the
    request for a report of a given file name would end. *)
Definition loadReportsList (listing : Response (list Report.t))
    (fetch : string → Response jsval) (st : State) : State :=
  match listing with
  | Resolved all =>
      let availableReports := filter (λ r, Report.exists_ r = true) all in
      let st1 :=
        mkState availableReports (selectedReport st) (report st) true JNull in
      match
        List.find (λ r, String.eqb (Report.agent r) "report_generator")
          availableReports
      with
      | Some consolidatedReport =>
          let st2 :=
            mkState (reports st1) (Some consolidatedReport) (report st1)
              true JNull in
          let st3 := loadReport (fetch (Report.filename consolidatedReport)) st2 in
          mkState (reports st3) (selectedReport st3) (report st3) false
            (error st3)
      | None =>
          mkState (reports st1) (selectedReport st1) (report st1) false
            (error st1)
      end
  | Rejected detail =>
      mkState (reports st) (selectedReport st) (report st) false
        (if truthy detail then detail else JStr "Failed to load reports list")
  end.

End ResultsStep.

(** ** What is shown of a step *)

(** The label of a step's status chip, [step.status.toUpperCase()]
    (line 536), evaluated for every step while [executing] holds.  Calling
    the method on [undefined] or [null], or on a value that has no such
    method, throws a [TypeError] ([None]); what [toUpperCase] makes of a
    string is left open. *)
Definition chip_label (toUpperCase : string → string) (status : jsval)
    : option string :=
  match status with
  | JStr s => Some (toUpperCase s)
  | _ => None
  end.

(** The labels of the status chips of the progress panel, or [None] when
    evaluating one of them throws.  Only the chips are modelled: the panel
    renders more than its chips (each step's message and shown log lines),
    so [Some] says that the labels were computed, not that the whole panel
    rendered. *)
Definition chip_labels (toUpperCase : string → string) (st : State)
    : option (list string) :=
  if executing st
  then mapM (λ step, chip_label toUpperCase (Step.status step))
         (executionSteps st)
  else Some [].

(** ** [createWebSocket] ([api.js]) *)

(** The fields of [window.location] the helper reads. *)
Record Location : Type := mkLocation {
  protocol : string;
  host : string;
  pathname : string;
}.

(** [s.replace(/\/$/, '')]: without the [m] flag [$] matches at the end of
    the input only, so at most one slash, the last character, is removed. *)
Fixpoint strip_trailing_slash (s : string) : string :=
  match s with
  | EmptyString => EmptyString
  | String c EmptyString => if Ascii.eqb c "/"%char then EmptyString else s
  | String c s' => String c (strip_trailing_slash s')
  end.

(** The URL [createWebSocket(path)] opens the socket to. *)
Definition createWebSocket (location : Location) (path : string) : string :=
  let protocol :=
    if String.eqb (protocol location) "https:" then "wss:" else "ws:" in
  let host := host location in
  let basePath := strip_trailing_slash (pathname location) in
  if negb (String.eqb basePath "")
  then protocol +:+ "//" +:+ host +:+ basePath +:+ "/" +:+ path
  else protocol +:+ "//" +:+ host +:+ "/" +:+ path.

(** The URL of the execution socket [connectWebSocket] opens. *)
Definition execution_socket_url (location : Location) : string :=
  createWebSocket location "ws/execution".

(** ** The upload step ([UCXUploadStep.jsx]) *)

(** Strings are taken as the UTF-8 bytes of the JavaScript string.
    [toLowerCase] is modelled on the letters A-Z; JavaScript also maps
    letters outside ASCII, none of them to a character of an accepted
    extension, so which names [handleFileUpload] accepts is the same. *)
Definition lower_char (c : ascii) : ascii :=
  let n := nat_of_ascii c in
  if (65 <=? n)%nat && (n <=? 90)%nat then ascii_of_nat (n + 32) else c.

Fixpoint toLowerCase (s : string) : string :=
  match s with
  | EmptyString => EmptyString
  | String c s' => String (lower_char c) (toLowerCase s')
  end.

(** [s.lastIndexOf(c)] for a one-character [c]: the index of its last
    occurrence, [-1] when there is none. *)
Fixpoint lastIndexOf (s : string) (c : ascii) : Z :=
  match s with
  | EmptyString => (-1)%Z
  | String a s' =>
      let r := lastIndexOf s' c in
      if (0 <=? r)%Z then (r + 1)%Z
      else if Ascii.eqb a c then 0%Z else (-1)%Z
  end.

Fixpoint string_drop (n : nat) (s : string) : string :=
  match n, s with
  | O, _ => s
  | S n', String _ s' => string_drop n' s'
  | S _, EmptyString => EmptyString
  end.

(** [s.substring(start)]: a negative [start] counts as 0, one past the end
    as the length. *)
Definition substring (s : string) (start : Z) : string :=
  string_drop (Z.to_nat (Z.max 0 start)) s.

Definition validExtensions : list string := [".csv"; ".xlsx"; ".xls"].

(** [file.name.substring(file.name.lastIndexOf('.')).toLowerCase()]. *)
Definition fileExtension (name : string) : string :=
  toLowerCase (substring name (lastIndexOf name "."%char)).

Module UCXUploadStep.

(** One entry of the file listing. *)
Record FileInfo : Type := mkFileInfo {
  name : string;
  size : Z;
  modified : Z;
}.

(** The requests the step sends. *)
Inductive Request : Type :=
  | GetFiles
  | PostUpload (filename : string)
  | DeleteFile (filename : string).

(** The [useState] cells and the requests sent so far. *)
Record State : Type := mkState {
  files : list FileInfo;
  uploading : bool;
  error : jsval;
  success : jsval;
  requests : list Request;
}.

(** The state on mount, with the request of [loadFiles]. *)
Definition initialState : State := mkState [] false JNull JNull [GetFiles].

(** [loadFiles], given how the listing request ended; [None] stands for a
    response without a [files] field ([response.data.files || []]). *)
Definition loadFiles (response : Response (option (list FileInfo)))
    (st : State) : State :=
  match response with
  | Resolved (Some listing) =>
      mkState listing (uploading st) (error st) (success st) (requests st)
  | Resolved None =>
      mkState [] (uploading st) (error st) (success st) (requests st)
  | Rejected _ => st
  end.

(** [handleFileUpload] up to its [await]; [file] is the name of
    [event.target.files[0]], [None] when no file was chosen. *)
Definition handleFileUpload (file : option string) (st : State) : State :=
  match file with
  | None => st
  | Some filename =>
      if negb (includes validExtensions (fileExtension filename)) then
        mkState (files st) (uploading st)
          (JStr "Invalid file type. Please upload CSV or Excel files only.")
          (success st) (requests st)
      else
        mkState (files st) true JNull JNull
          (requests st ++ [PostUpload filename])
  end.

(** The rest of [handleFileUpload], given how the upload ended ([message]
    is [response.data.message]) and how the listing that follows a
    successful upload ended. *)
Definition handleFileUpload_done (upload : Response jsval)
    (listing : Response (option (list FileInfo))) (st : State) : State :=
  match upload with
  | Resolved message =>
      let st1 :=
        mkState (files st) (uploading st) (error st) message
          (requests st ++ [GetFiles]) in
      let st2 := loadFiles listing st1 in
      mkState (files st2) false (error st2) (success st2) (requests st2)
  | Rejected detail =>
      mkState (files st) false
        (if truthy detail then detail else JStr "Failed to upload file")
        (success st) (requests st)
  end.

End UCXUploadStep.

(** ** The configuration step ([ConfigurationStep]) *)

Module ConfigurationStep.

Record Config : Type := mkConfig {
  databricks_host : string;
  databricks_token : string;
  terraform_path : string;
}.

(** The [validation] cell; the server's answer is stored as it comes. *)
Record Validation : Type := mkValidation {
  databricks : jsval;
  terraform : jsval;
  message : jsval;
}.

(** What the step sends out. *)
Inductive Effect : Type :=
  | GetConfig
  | PostValidate (config : Config)
  | OnNext (config : Config).

Record State : Type := mkState {
  config : Config;
  validation : Validation;
  loading : bool;
  showToken : bool;
  effects : list Effect;
}.

(** The state on mount: the fields of [initialData], [''] for a missing
    one, and the request of [loadConfig]. *)
Definition initialState (initialData : option Config) : State :=
  mkState
    (match initialData with
     | Some c => c
     | None => mkConfig "" "" ""
     end)
    (mkValidation JNull JNull (JStr "")) false false [GetConfig].

(** [loadConfig], given how the request ended: the stored configuration
    replaces the form's when [response.data.exists] holds. *)
Definition loadConfig (response : Response (bool * Config)) (st : State)
    : State :=
  match response with
  | Resolved (true, stored) =>
      mkState stored (validation st) (loading st) (showToken st) (effects st)
  | _ => st
  end.

(** [handleSave]: the file imports [api] only, so evaluating the free
    identifier [axios] throws inside the [try] before any request is made;
    the [catch] logs the error and nothing else happens. *)
Definition handleSave (st : State) : State := st.

(** [handleValidate] up to its [await]. *)
Definition handleValidate (st : State) : State :=
  mkState (config st) (mkValidation JNull JNull (JStr "")) true (showToken st)
    (effects st ++ [PostValidate (config st)]).

(** The rest of [handleValidate], given how the request ended. *)
Definition handleValidate_done (response : Response Validation) (st : State)
    : State :=
  match response with
  | Resolved data =>
      let st1 :=
        mkState (config st) data (loading st) (showToken st) (effects st) in
      let st2 :=
        if truthy (databricks data) && truthy (terraform data)
        then handleSave st1 else st1 in
      mkState (config st2) (validation st2) false (showToken st2) (effects st2)
  | Rejected detail =>
      mkState (config st)
        (mkValidation (JBool false) (JBool false)
           (if truthy detail then detail else JStr "Validation failed"))
        false (showToken st) (effects st)
  end.

(** [isValid], as the [disabled] attribute of 'Next' tests it. *)
Definition isValid (st : State) : bool :=
  truthy (databricks (validation st)) && truthy (terraform (validation st)).

(** The [disabled] attribute of 'Test Connection'. *)
Definition validate_disabled (st : State) : bool :=
  loading st
  || String.eqb (databricks_host (config st)) ""
  || String.eqb (databricks_token (config st)) "".

Inductive Action : Type :=
  | ConfigLoaded (response : Response (bool * Config))
  | SetHost (value : string)
  | SetToken (value : string)
  | SetPath (value : string)
  | ToggleShowToken
  | ClickValidate
  | ValidateDone (response : Response Validation)
  | ClickNext.

(** A control acts only when it is not disabled; a validation can end only
    while one is under way. *)
Definition dispatch (a : Action) (st : State) : State :=
  let c := config st in
  match a with
  | ConfigLoaded response => loadConfig response st
  | SetHost value =>
      mkState (mkConfig value (databricks_token c) (terraform_path c))
        (validation st) (loading st) (showToken st) (effects st)
  | SetToken value =>
      mkState (mkConfig (databricks_host c) value (terraform_path c))
        (validation st) (loading st) (showToken st) (effects st)
  | SetPath value =>
      mkState (mkConfig (databricks_host c) (databricks_token c) value)
        (validation st) (loading st) (showToken st) (effects st)
  | ToggleShowToken =>
      mkState c (validation st) (loading st) (negb (showToken st)) (effects st)
  | ClickValidate =>
      if validate_disabled st then st else handleValidate st
  | ValidateDone response =>
      if loading st then handleValidate_done response st else st
  | ClickNext =>
      if isValid st
      then mkState c (validation st) (loading st) (showToken st)
             (effects st ++ [OnNext c])
      else st
  end.

Definition run (actions : list Action) (st : State) : State :=
  foldl (λ st a, dispatch a st) st actions.

End ConfigurationStep.

(** ** The elapsed-time chip *)

Fixpoint string_repeat (n : nat) (c : ascii) (s : string) : string :=
  match n with
  | O => s
  | S n' => String c (string_repeat n' c s)
  end.

(** [s.padStart(targetLength, c)] for a one-character [c]. *)
Definition padStart (targetLength : nat) (c : ascii) (s : string) : string :=
  string_repeat (targetLength - String.length s) c s.

(** The label of the chip (line 515):
    [`${Math.floor(elapsedTime / 60)}:${(elapsedTime % 60).toString().padStart(2, '0')}`].
    [elapsedTime] is an integer; [%] takes the sign of the dividend. *)
Definition elapsed_label (elapsedTime : Z) : string :=
  pretty (elapsedTime / 60)%Z +:+ ":"
  +:+ padStart 2 "0"%char (pretty (Z.rem elapsedTime 60)).

(** * Notions the properties are stated with *)

(** What [handleWebSocketMessage] does to [executionSteps]. *)
Definition on_steps (data : Data.t) (steps : list Step.t) : list Step.t :=
  if str_eq (Data.type data) "status" then status_updater data steps
  else if str_eq (Data.type data) "log" then log_updater data steps
  else steps.

(** What it does to the step an event is addressed to. *)
Definition on_step (data : Data.t) (s : Step.t) : Step.t :=
  if str_eq (Data.type data) "status" then status_update data s
  else if str_eq (Data.type data) "log" then log_update data s
  else s.

(** The lines one event adds to the step it is addressed to. *)
Definition lines (data : Data.t) : list jsval :=
  if str_eq (Data.type data) "status" then
    if truthy (Data.log data) then [Data.log data] else []
  else if str_eq (Data.type data) "log" then [Data.message data]
  else [].

(** The lines a sequence of events adds to the step at index [i], in the
    order of arrival. *)
Definition appended (steps : list Step.t) (i : nat) (messages : list Data.t)
    : list jsval :=
  messages ≫= (λ data,
    if decide (findIndex (step_matches data) steps = Some i)
    then lines data else []).

(** The place of a status in [pending → running → {completed | error}];
    any other value has none. *)
Definition status_rank (v : jsval) : option nat :=
  match v with
  | JStr s =>
      if String.eqb s "pending" then Some 0
      else if String.eqb s "running" then Some 1
      else if String.eqb s "completed" || String.eqb s "error" then Some 2
      else None
  | _ => None
  end.

(** [new] is not earlier than [old]: the same value, or a later or equal
    place in the order. *)
Definition forward (old new : jsval) : bool :=
  bool_decide (old = new)
  || match status_rank old, status_rank new with
     | Some a, Some b => (a <=? b)%nat
     | _, _ => false
     end.

(** A status event does not take the step it is addressed to backwards. *)
Definition forward_event (steps : list Step.t) (data : Data.t) : bool :=
  if str_eq (Data.type data) "status" then
    match findIndex (step_matches data) steps with
    | Some i =>
        match steps !! i with
        | Some s => forward (Step.status s) (Data.status data)
        | None => true
        end
    | None => true
    end
  else true.

(** Every event of the sequence is forward when it arrives. *)
Fixpoint forward_stream (st : State) (messages : list Data.t) : bool :=
  match messages with
  | [] => true
  | data :: rest =>
      forward_event (executionSteps st) data
      && forward_stream (handleWebSocketMessage data st) rest
  end.

(** The claim that no step's status ever goes backwards, whatever the
    socket delivers. *)
Definition status_never_regresses : Prop :=
  ∀ (messages : list Data.t) (st : State) (i : nat) (s s' : Step.t),
    executionSteps st !! i = Some s →
    executionSteps (receive messages st) !! i = Some s' →
    forward (Step.status s) (Step.status s') = true.

(** A run in which the export step is running, and a status event that
    names ['pending'] for it. *)
Definition running_state : State :=
  run [ClickStart 0;
       Message (Data.mk (JStr "status") (JStr "terraform") (JStr "running")
                  (JStr "Exporting") JUndefined)]
    initialState.

Definition pending_event : Data.t :=
  Data.mk (JStr "status") (JStr "terraform") (JStr "pending") (JStr "")
    JUndefined.

(** The selection after the user unticks 'Terraform Analysis' and ticks it
    again: the box appends the id behind 'report_generator'. *)
Definition reselected_state : State :=
  run [ToggleAgent "terraform_reader"; ToggleAgent "terraform_reader"]
    initialState.

(** The listing holds at least one entry whose [exists] flag is set. *)
Definition lists_a_report (response : Response (list Report.t)) : Prop :=
  ∃ reports r,
    response = Resolved reports ∧ r ∈ reports ∧ Report.exists_ r = true.

(** The claim that [hasExistingReports] follows the listing alone: after
    any sequence of actions it is set exactly when the listing answered on
    mount held an existing entry. *)
Definition reports_flag_is_listing : Prop :=
  ∀ (response : Response (list Report.t)) (actions : list Action),
    hasExistingReports (run (Mounted response :: actions) initialState) = true
    ↔ lists_a_report response.

(** A run of both stages whose steps have both been reported completed,
    before the closing 'completed' event. *)
Definition steps_completed_state : State :=
  run [ClickStart 0;
       Message (Data.mk (JStr "status") (JStr "terraform") (JStr "completed")
                  (JStr "Export done") JUndefined);
       Message (Data.mk (JStr "status") (JStr "agents") (JStr "completed")
                  (JStr "Analysis done") JUndefined)]
    initialState.

(** A run started before the mount-time listing call has ended, and the
    listing then reports an existing report. *)
Definition late_listing_state : State :=
  run [ClickStart 0;
       Mounted (Resolved
         [Report.mk "report_generator" "consolidated_report.md" true])]
    initialState.

(** Reports were found on mount and the user has then unticked both stages. *)
Definition no_stage_state : State :=
  run [Mounted (Resolved
         [Report.mk "report_generator" "consolidated_report.md" true]);
       ToggleRunTerraform; ToggleRunAgents]
    initialState.

(** A start request was rejected and the user has then unticked both stages. *)
Definition no_stage_error_state : State :=
  run [ClickStart 0; StartRejected (JStr "Execution already running");
       ToggleRunTerraform; ToggleRunAgents]
    initialState.

(** The last status event of a sequence that is addressed to the step at
    index [i], if there is one. *)
Definition last_status_event (steps : list Step.t) (i : nat)
    (messages : list Data.t) : option Data.t :=
  last (filter (λ data, str_eq (Data.type data) "status" = true
                        ∧ findIndex (step_matches data) steps = Some i)
          messages).

(** [step.logs.slice(-20)], the lines of a step that are shown (line 565):
    [slice(-n)] starts at [max(length - n, 0)]. *)
Definition slice_last {A : Type} (n : nat) (l : list A) : list A :=
  drop (length l - n) l.

Definition shown_logs (step : Step.t) : list jsval :=
  slice_last 20 (Step.logs step).

(** The number of start requests sent so far. *)
Definition starts (st : State) : nat :=
  length (omap (λ e, match e with PostStart req => Some req | _ => None end)
            (effects st)).

(** No action of the sequence is the rejection of a start request. *)
Definition no_rejection (actions : list Action) : Prop :=
  Forall (λ a, match a with StartRejected _ => False | _ => True end) actions.

(** The last character of a string. *)
Fixpoint last_char (s : string) : option Ascii.ascii :=
  match s with
  | EmptyString => None
  | String c EmptyString => Some c
  | String _ s' => last_char s'
  end.

(** The character does not occur in the string. *)
Fixpoint lacks (c : ascii) (s : string) : Prop :=
  match s with
  | EmptyString => True
  | String a s' => a ≠ c ∧ lacks c s'
  end.

(** * Properties *)

(** ** [findIndex] *)

Section FindIndex.
Context {A : Type} (p : A → bool).

Lemma findIndex_Some l i :
  findIndex p l = Some i → ∃ x, l !! i = Some x ∧ p x = true.
Proof.
  revert i. induction l as [|a l IH]; intros i; simpl; [done|].
  destruct (p a) eqn:Hp.
  - intros [= <-]. by exists a.
  - destruct (findIndex p l) as [j|]; simpl; [|done].
    intros [= <-]. by apply IH.
Qed.

Lemma findIndex_None l :
  findIndex p l = None ↔ ∀ x, x ∈ l → p x = false.
Proof.
  induction l as [|a l IH]; simpl.
  - split; [|done]. intros _ x Hx. by apply elem_of_nil in Hx.
  - destruct (p a) eqn:Hp.
    + split; [done|]. intros H. specialize (H a (list_elem_of_here _ _)).
      congruence.
    + destruct (findIndex p l) as [j|]; simpl.
      * split; [done|]. intros H. exfalso.
        assert (Some j = None) as Hj; [|done].
        apply IH. intros x Hx. apply H. by apply list_elem_of_further.
      * split; [|done]. intros _ x [->|Hx]%elem_of_cons; [done|].
        by apply IH.
Qed.

Lemma findIndex_never l : (∀ x, p x = false) → findIndex p l = None.
Proof. intros H. apply findIndex_None. auto. Qed.
End FindIndex.

(** [step_matches] reads the step's name only, and no updater changes a
    name: the step an event is addressed to is the same all along a run. *)
Lemma step_matches_name data s s' :
  Step.name s = Step.name s' → step_matches data s = step_matches data s'.
Proof. unfold step_matches. by intros ->. Qed.

Lemma findIndex_names data (l l' : list Step.t) :
  Step.name <$> l = Step.name <$> l' →
  findIndex (step_matches data) l = findIndex (step_matches data) l'.
Proof.
  revert l'. induction l as [|s l IH]; intros [|s' l']; simpl; try done.
  intros [= Hn Hl]. rewrite (step_matches_name data s s' Hn).
  by rewrite (IH l' Hl).
Qed.

Lemma step_matches_other data s :
  Data.step data ≠ JStr "terraform" → Data.step data ≠ JStr "agents" →
  step_matches data s = false.
Proof.
  intros Ht Ha. unfold step_matches, str_eq.
  destruct (Data.step data) as [| |b|n|x|]; try done.
  destruct (String.eqb_spec x "terraform") as [->|_]; [done|].
  destruct (String.eqb_spec x "agents") as [->|_]; [done|]. done.
Qed.

(** ** [handleWebSocketMessage] on the step list *)

Lemma handleWebSocketMessage_steps data st :
  executionSteps (handleWebSocketMessage data st)
  = on_steps data (executionSteps st).
Proof.
  unfold handleWebSocketMessage, on_steps.
  repeat (destruct (str_eq _ _); [done|]). done.
Qed.

Lemma on_steps_alter data steps :
  on_steps data steps =
  match findIndex (step_matches data) steps with
  | Some i => alter (on_step data) i steps
  | None => steps
  end.
Proof.
  unfold on_steps, on_step, status_updater, log_updater.
  destruct (str_eq (Data.type data) "status"); [done|].
  destruct (str_eq (Data.type data) "log"); [done|].
  destruct (findIndex _ _); [|done]. by rewrite list_alter_id.
Qed.

Lemma on_step_name data s : Step.name (on_step data s) = Step.name s.
Proof. unfold on_step. by repeat (destruct (str_eq _ _); [done|]). Qed.

Lemma on_steps_lookup data steps i s :
  steps !! i = Some s →
  on_steps data steps !! i =
  Some (if decide (findIndex (step_matches data) steps = Some i)
        then on_step data s else s).
Proof.
  intros Hi. rewrite on_steps_alter.
  destruct (findIndex _ _) as [j|] eqn:Hj.
  - rewrite list_lookup_alter. destruct (decide (j = i)) as [->|Hne].
    + rewrite Hi. simpl. by rewrite decide_True.
    + rewrite decide_False by congruence. done.
  - by rewrite decide_False.
Qed.

Lemma on_steps_length data steps : length (on_steps data steps) = length steps.
Proof.
  rewrite on_steps_alter. destruct (findIndex _ _); [|done].
  apply length_alter.
Qed.

Lemma on_steps_names data steps :
  Step.name <$> on_steps data steps = Step.name <$> steps.
Proof.
  rewrite on_steps_alter. destruct (findIndex _ _) as [i|]; [|done].
  apply list_eq. intros j. rewrite !list_lookup_fmap, list_lookup_alter.
  destruct (decide (i = j)) as [->|]; [|done].
  destruct (steps !! j) as [s|]; simpl; [|done]. by rewrite on_step_name.
Qed.

Lemma receive_cons data messages st :
  receive (data :: messages) st
  = receive messages (handleWebSocketMessage data st).
Proof. done. Qed.

Lemma receive_names messages st :
  Step.name <$> executionSteps (receive messages st)
  = Step.name <$> executionSteps st.
Proof.
  revert st. induction messages as [|d ds IH]; intros st; [done|].
  rewrite receive_cons, IH, handleWebSocketMessage_steps.
  apply on_steps_names.
Qed.

Lemma receive_length messages st :
  length (executionSteps (receive messages st)) = length (executionSteps st).
Proof.
  revert st. induction messages as [|d ds IH]; intros st; [done|].
  rewrite receive_cons, IH, handleWebSocketMessage_steps.
  apply on_steps_length.
Qed.

(** ** Log lines *)

Lemma appended_cons steps i data messages :
  appended steps i (data :: messages)
  = (if decide (findIndex (step_matches data) steps = Some i)
     then lines data else []) ++ appended steps i messages.
Proof. done. Qed.

Lemma on_step_logs data s :
  Step.logs (on_step data s) = Step.logs s ++ lines data.
Proof.
  unfold on_step, lines.
  destruct (str_eq (Data.type data) "status").
  - simpl. destruct (truthy _); [done|]. by rewrite app_nil_r.
  - destruct (str_eq (Data.type data) "log"); [done|]. by rewrite app_nil_r.
Qed.

Lemma appended_names steps steps' i messages :
  Step.name <$> steps = Step.name <$> steps' →
  appended steps i messages = appended steps' i messages.
Proof.
  intros Hn. induction messages as [|d ds IH]; [done|].
  by rewrite !appended_cons, IH, (findIndex_names d steps steps' Hn).
Qed.

Lemma appended_logs steps i messages :
  Forall (λ data, Data.type data = JStr "log"
                  ∧ findIndex (step_matches data) steps = Some i) messages →
  appended steps i messages = Data.message <$> messages.
Proof.
  induction 1 as [|d ds [Ht Hi] _ IH]; [done|].
  rewrite appended_cons, IH, decide_True by done.
  unfold lines. by rewrite Ht.
Qed.

Lemma receive_logs messages st i s :
  executionSteps st !! i = Some s →
  ∃ s', executionSteps (receive messages st) !! i = Some s'
        ∧ Step.name s' = Step.name s
        ∧ Step.logs s' = Step.logs s ++ appended (executionSteps st) i messages.
Proof.
  revert st s. induction messages as [|d ds IH]; intros st s Hs.
  - exists s. by rewrite app_nil_r.
  - rewrite receive_cons.
    pose proof (on_steps_lookup d _ _ _ Hs) as H1.
    rewrite <- handleWebSocketMessage_steps in H1.
    destruct (IH _ _ H1) as (s' & Hs' & Hn & Hl). exists s'.
    split; [done|].
    rewrite (appended_names _ (executionSteps st)) in Hl
      by (rewrite handleWebSocketMessage_steps; apply on_steps_names).
    rewrite appended_cons.
    destruct (decide _).
    + rewrite on_step_name in Hn. rewrite on_step_logs in Hl.
      by rewrite app_assoc.
    + done.
Qed.

(** C6. Per-step log lines are append-only and first-in first-out under
    [handleWebSocketMessage]: whatever events arrive, the step list keeps its
    length, the step at every index keeps its name and its stored lines as a
    prefix, and the lines added are exactly those of the events addressed to
    it, in arrival order; when the events are all log events addressed to
    that step, each adds exactly its one [message], at the end. *)
Theorem logs_append_only_fifo (messages : list Data.t) (st : State)
    (i : nat) (s : Step.t) :
  executionSteps st !! i = Some s →
  length (executionSteps (receive messages st)) = length (executionSteps st)
  ∧ ∃ s', executionSteps (receive messages st) !! i = Some s'
     ∧ Step.name s' = Step.name s
     ∧ Step.logs s `prefix_of` Step.logs s'
     ∧ Step.logs s' = Step.logs s ++ appended (executionSteps st) i messages
     ∧ (Forall (λ data,
          Data.type data = JStr "log"
          ∧ findIndex (step_matches data) (executionSteps st) = Some i)
          messages →
        Step.logs s' = Step.logs s ++ (Data.message <$> messages)).
Proof.
  intros Hs. split; [apply receive_length|].
  destruct (receive_logs messages st i s Hs) as (s' & Hs' & Hn & Hl).
  exists s'. repeat split; try done.
  - rewrite Hl. by apply prefix_app_r.
  - intros Hall. by rewrite Hl, appended_logs.
Qed.

(** ** Events addressed to no step *)

(** C9. An event whose [step] field is neither ['terraform'] nor ['agents']
    leaves [executionSteps] as it was, whatever its type: no step's status,
    message or logs changes and no step is added. *)
Theorem unmatched_step_frame (data : Data.t) (st : State) :
  Data.step data ≠ JStr "terraform" →
  Data.step data ≠ JStr "agents" →
  executionSteps (handleWebSocketMessage data st) = executionSteps st.
Proof.
  intros Ht Ha. rewrite handleWebSocketMessage_steps, on_steps_alter.
  rewrite findIndex_never; [done|].
  intros s. by apply step_matches_other.
Qed.

(** ** Step status *)

Lemma forward_refl v : forward v v = true.
Proof. unfold forward. by rewrite bool_decide_eq_true_2. Qed.

Lemma forward_trans a b c :
  forward a b = true → forward b c = true → forward a c = true.
Proof.
  unfold forward. intros Hab Hbc.
  apply orb_true_iff in Hab as [->%bool_decide_eq_true|Hab]; [done|].
  apply orb_true_iff in Hbc as [<-%bool_decide_eq_true|Hbc].
  { rewrite Hab. apply orb_true_r. }
  apply orb_true_iff. right.
  destruct (status_rank a) as [x|]; [|done].
  destruct (status_rank b) as [y|]; [|done].
  destruct (status_rank c) as [z|]; [|done].
  apply Nat.leb_le in Hab, Hbc. apply Nat.leb_le. lia.
Qed.

(** After one event a step's status is what it was, unless the event is a
    status event addressed to the step: then it is the event's [status]
    field, as sent. *)
Lemma on_step_status data s :
  Step.status (on_step data s) =
  if str_eq (Data.type data) "status" then Data.status data
  else Step.status s.
Proof.
  unfold on_step. destruct (str_eq (Data.type data) "status"); [done|].
  by destruct (str_eq (Data.type data) "log").
Qed.

Lemma status_event_verbatim data st i s :
  Data.type data = JStr "status" →
  findIndex (step_matches data) (executionSteps st) = Some i →
  executionSteps st !! i = Some s →
  executionSteps (handleWebSocketMessage data st) !! i
  = Some (status_update data s).
Proof.
  intros Hty Hi Hs.
  rewrite handleWebSocketMessage_steps, (on_steps_lookup _ _ _ _ Hs).
  rewrite decide_True by done. unfold on_step. by rewrite Hty.
Qed.

(** C2, as stated, fails: the status event is applied as sent, so the
    running export step goes back to pending. *)
Lemma status_regresses :
  executionSteps running_state !! 0
  = Some (Step.mk "Terraform Export" (JStr "running") (JStr "Exporting") [])
  ∧ executionSteps (receive [pending_event] running_state) !! 0
    = Some (Step.mk "Terraform Export" (JStr "pending") (JStr "") [])
  ∧ forward (JStr "running") (JStr "pending") = false
  ∧ ¬ status_never_regresses.
Proof.
  split; [done|]. split; [done|]. split; [done|].
  intros H.
  specialize (H [pending_event] running_state 0 _ _ eq_refl eq_refl).
  discriminate H.
Qed.

(** C2, amended. [handleWebSocketMessage] has no guard of its own.  After
    one event the status of a step is the [status] field of the event, as
    sent, when the event is a status event addressed to that step, and what
    it was otherwise: log events, terminal events and events addressed to
    another step never change it.  So a step's status never goes backwards
    along a sequence of events exactly as far as the events do not: if every
    status event, when it arrives, carries a status that is not earlier than
    the current status of the step it is addressed to, then the status of
    every step at the end is not earlier than at the start (and the step is
    still there, at the same index). *)
Theorem status_forward_on_forward_stream (messages : list Data.t)
    (st : State) (i : nat) (s : Step.t) :
  executionSteps st !! i = Some s →
  forward_stream st messages = true →
  (∀ data, ∃ s1,
     executionSteps (handleWebSocketMessage data st) !! i = Some s1
     ∧ Step.status s1
       = if decide (str_eq (Data.type data) "status" = true
                    ∧ findIndex (step_matches data) (executionSteps st) = Some i)
         then Data.status data else Step.status s)
  ∧ ∃ s', executionSteps (receive messages st) !! i = Some s'
          ∧ forward (Step.status s) (Step.status s') = true.
Proof.
  intros Hs Hfw. split.
  { intros data. eexists. split.
    - rewrite handleWebSocketMessage_steps. by apply on_steps_lookup.
    - destruct (decide (findIndex _ _ = Some i)) as [Hi|Hi].
      + rewrite on_step_status.
        destruct (str_eq (Data.type data) "status") eqn:Hty.
        * by rewrite decide_True.
        * rewrite decide_False; [done|]. by intros [? _].
      + rewrite decide_False; [done|]. by intros [_ ?]. }
  revert st s Hs Hfw. induction messages as [|d ds IH]; intros st s Hs Hfw.
  - exists s. split; [done|]. apply forward_refl.
  - simpl in Hfw. apply andb_true_iff in Hfw as [Hd Hds].
    pose proof (on_steps_lookup d _ _ _ Hs) as H1.
    rewrite <- handleWebSocketMessage_steps in H1.
    destruct (IH _ _ H1 Hds) as (s' & Hs' & Hf). exists s'.
    split; [by rewrite receive_cons|].
    eapply forward_trans; [|exact Hf].
    destruct (decide _) as [Hi|_]; [|apply forward_refl].
    rewrite on_step_status. unfold forward_event in Hd.
    destruct (str_eq (Data.type d) "status"); [|apply forward_refl].
    by rewrite Hi, Hs in Hd.
Qed.

Lemma status_forward_on_forward_stream_witness :
  let st := handleExecute 0 initialState in
  let messages :=
    [Data.mk (JStr "status") (JStr "terraform") (JStr "running")
       (JStr "Exporting") (JStr "terraform init");
     Data.mk (JStr "log") (JStr "terraform") JUndefined (JStr "Exported 34 files")
       JUndefined;
     Data.mk (JStr "status") (JStr "terraform") (JStr "completed")
       (JStr "Export done") JUndefined;
     Data.mk (JStr "status") (JStr "agents") (JStr "running")
       (JStr "Analysing") JUndefined] in
  let log :=
    Data.mk (JStr "log") (JStr "terraform") (JStr "error") (JStr "a line")
      JUndefined in
  forward_stream st messages = true
  ∧ (∃ s1, executionSteps (handleWebSocketMessage log st) !! 0 = Some s1
           ∧ Step.status s1 = JStr "pending")
  ∧ ∃ s', executionSteps (receive messages st) !! 0 = Some s'
          ∧ forward (JStr "pending") (Step.status s') = true.
Proof.
  split; [reflexivity|].
  destruct (status_forward_on_forward_stream
              [Data.mk (JStr "status") (JStr "terraform") (JStr "running")
                 (JStr "Exporting") (JStr "terraform init");
               Data.mk (JStr "log") (JStr "terraform") JUndefined
                 (JStr "Exported 34 files") JUndefined;
               Data.mk (JStr "status") (JStr "terraform") (JStr "completed")
                 (JStr "Export done") JUndefined;
               Data.mk (JStr "status") (JStr "agents") (JStr "running")
                 (JStr "Analysing") JUndefined]
              (handleExecute 0 initialState) 0
              (Step.mk "Terraform Export" (JStr "pending") (JStr "") [])
              eq_refl eq_refl) as [Hevent Hend].
  split; [|exact Hend].
  exact (Hevent (Data.mk (JStr "log") (JStr "terraform") (JStr "error")
                   (JStr "a line") JUndefined)).
Defined.

Lemma logs_append_only_fifo_witness :
  let st := handleExecute 0 initialState in
  let messages :=
    [Data.mk (JStr "log") (JStr "agents") JUndefined (JStr "reader: start")
       JUndefined;
     Data.mk (JStr "log") (JStr "agents") JUndefined (JStr "reader: done")
       JUndefined] in
  executionSteps st !! 1
  = Some (Step.mk "AI Agents Analysis" (JStr "pending") (JStr "") [])
  ∧ length (executionSteps (receive messages st)) = 2
  ∧ ∃ s', executionSteps (receive messages st) !! 1 = Some s'
     ∧ Step.name s' = "AI Agents Analysis"
     ∧ Step.logs s' = [JStr "reader: start"; JStr "reader: done"].
Proof.
  split; [reflexivity|].
  destruct (logs_append_only_fifo
              [Data.mk (JStr "log") (JStr "agents") JUndefined
                 (JStr "reader: start") JUndefined;
               Data.mk (JStr "log") (JStr "agents") JUndefined
                 (JStr "reader: done") JUndefined]
              (handleExecute 0 initialState) 1
              (Step.mk "AI Agents Analysis" (JStr "pending") (JStr "") [])
              eq_refl)
    as (Hlen & s' & Hs' & Hn & _ & _ & Hall).
  split; [exact Hlen|]. exists s'. split; [exact Hs'|]. split; [exact Hn|].
  apply Hall. repeat constructor.
Defined.

Lemma unmatched_step_frame_witness :
  let data :=
    Data.mk (JStr "status") (JStr "export") (JStr "running") (JStr "m")
      (JStr "line") in
  let st := handleExecute 0 initialState in
  Data.step data ≠ JStr "terraform"
  ∧ Data.step data ≠ JStr "agents"
  ∧ executionSteps (handleWebSocketMessage data st) = executionSteps st.
Proof.
  split; [discriminate|]. split; [discriminate|].
  apply unmatched_step_frame; discriminate.
Defined.

(** ** The step list [handleExecute] starts from *)

(** C3. [handleExecute] sets [executionSteps] to the 'Terraform Export' step
    if and only if [runTerraform] is on, followed by the 'AI Agents Analysis'
    step if and only if [runAgents] is on, in that order and each once, each
    with status 'pending', an empty message and no logs. *)
Theorem handleExecute_initial_steps (now : Z) (st : State) :
  let o := options st in
  let steps := executionSteps (handleExecute now st) in
  Step.name <$> steps
  = (if runTerraform o then ["Terraform Export"] else [])
    ++ (if runAgents o then ["AI Agents Analysis"] else [])
  ∧ ("Terraform Export" ∈ Step.name <$> steps ↔ runTerraform o = true)
  ∧ ("AI Agents Analysis" ∈ Step.name <$> steps ↔ runAgents o = true)
  ∧ Forall (λ s, Step.status s = JStr "pending"
                 ∧ Step.message s = JStr "" ∧ Step.logs s = []) steps
  ∧ length steps
    = (if runTerraform o then 1 else 0) + (if runAgents o then 1 else 0).
Proof.
  simpl. unfold build_steps.
  destruct (runTerraform (options st)), (runAgents (options st)); simpl;
    repeat split; try done; repeat constructor;
    rewrite ?elem_of_cons, ?elem_of_nil; intuition congruence.
Qed.

(** ** The agents sent in the start request *)

Lemma includes_spec l x : includes l x = true ↔ x ∈ l.
Proof.
  unfold includes. rewrite existsb_exists. split.
  - intros (y & Hy & ->%String.eqb_eq). by apply list_elem_of_In.
  - intros Hx. exists x. split; [by apply list_elem_of_In|].
    apply String.eqb_refl.
Qed.

Lemma handleExecute_last_effect now st :
  last (effects (handleExecute now st))
  = Some (PostStart (start_request (options st))).
Proof. simpl. by rewrite last_app. Qed.

(** C1, amended. Whatever the options, the agent list [handleExecute] sends
    ([agentsToRun], joined with commas into [selected_agents]) contains
    'report_generator' and starts with the caller's selection: when the
    selection omits 'report_generator' it is appended, and so is last; when
    the selection already has it the selection is sent as it is, in the
    caller's order. *)
Theorem agentsToRun_has_report_generator (now : Z) (st : State) :
  let o := options st in
  "report_generator" ∈ agentsToRun o
  ∧ (selectedAgents o `prefix_of` agentsToRun o)
  ∧ (("report_generator" ∈ selectedAgents o
       ∧ agentsToRun o = selectedAgents o)
     ∨ (("report_generator" ∉ selectedAgents o)
       ∧ agentsToRun o = selectedAgents o ++ ["report_generator"]
       ∧ last (agentsToRun o) = Some "report_generator"))
  ∧ last (effects (handleExecute now st)) = Some (PostStart (start_request o))
  ∧ selected_agents (start_request o) = join (agentsToRun o).
Proof.
  cbv zeta. rewrite handleExecute_last_effect.
  enough ("report_generator" ∈ agentsToRun (options st)
          ∧ (selectedAgents (options st) `prefix_of` agentsToRun (options st))
          ∧ (("report_generator" ∈ selectedAgents (options st)
              ∧ agentsToRun (options st) = selectedAgents (options st))
             ∨ (("report_generator" ∉ selectedAgents (options st))
                ∧ agentsToRun (options st)
                  = selectedAgents (options st) ++ ["report_generator"]
                ∧ last (agentsToRun (options st)) = Some "report_generator")))
    as (H1 & H2 & H3) by done.
  unfold agentsToRun. destruct (includes _ _) eqn:Hin.
  - apply includes_spec in Hin. repeat split; try done. by left.
  - assert ("report_generator" ∉ selectedAgents (options st)) as Hn.
    { intros H%includes_spec. congruence. }
    repeat split.
    + apply elem_of_app. right. apply list_elem_of_here.
    + by apply prefix_app_r.
    + right. repeat split; [done|]. apply last_snoc.
Qed.

(** C1, as stated, fails: with analysis enabled and 'report_generator'
    selected but not last, the list is sent as selected. *)
Lemma report_generator_not_last :
  runAgents (options reselected_state) = true
  ∧ selectedAgents (options reselected_state)
    = ["ucx_analyst"; "report_generator"; "terraform_reader"]
  ∧ agentsToRun (options reselected_state)
    = ["ucx_analyst"; "report_generator"; "terraform_reader"]
  ∧ last (agentsToRun (options reselected_state)) = Some "terraform_reader"
  ∧ last (agentsToRun (options reselected_state)) ≠ Some "report_generator"
  ∧ selected_agents (start_request (options reselected_state))
    = "ucx_analyst,report_generator,terraform_reader"
  ∧ last (effects (dispatch (ClickStart 0) reselected_state))
    = Some (PostStart (start_request (options reselected_state))).
Proof. repeat split; done. Qed.

(** ** Terminal events *)

(** C7. A 'completed', 'error' or 'stopped' event leaves [executing] false
    (and the step list as it was); 'completed' also sets
    [hasExistingReports], 'error' makes the event's [message] the shown
    error, and 'stopped' makes it 'Execution stopped by user.'. *)
Theorem terminal_event_stops_executing (data : Data.t) (st : State) :
  Data.type data ∈ [JStr "completed"; JStr "error"; JStr "stopped"] →
  let st' := handleWebSocketMessage data st in
  executing st' = false
  ∧ executionSteps st' = executionSteps st
  ∧ (Data.type data = JStr "completed" →
     hasExistingReports st' = true ∧ error st' = error st
     ∧ effects st' = effects st ++ [ScheduleOnNext])
  ∧ (Data.type data = JStr "error" → error st' = Data.message data)
  ∧ (Data.type data = JStr "stopped" →
     error st' = JStr "Execution stopped by user.").
Proof.
  intros Hty. unfold handleWebSocketMessage.
  repeat (apply elem_of_cons in Hty as [->|Hty]; [by simpl|]).
  by apply elem_of_nil in Hty.
Qed.

Lemma terminal_event_stops_executing_witness :
  let st := handleExecute 0 initialState in
  let completed :=
    Data.mk (JStr "completed") JUndefined JUndefined JUndefined JUndefined in
  let failed :=
    Data.mk (JStr "error") JUndefined JUndefined (JStr "terraform exited 1")
      JUndefined in
  let stopped :=
    Data.mk (JStr "stopped") JUndefined JUndefined JUndefined JUndefined in
  executing st = true
  ∧ (executing (handleWebSocketMessage completed st) = false
     ∧ hasExistingReports (handleWebSocketMessage completed st) = true)
  ∧ (executing (handleWebSocketMessage failed st) = false
     ∧ error (handleWebSocketMessage failed st) = JStr "terraform exited 1")
  ∧ (executing (handleWebSocketMessage stopped st) = false
     ∧ error (handleWebSocketMessage stopped st)
       = JStr "Execution stopped by user.").
Proof.
  split; [reflexivity|].
  destruct (terminal_event_stops_executing
              (Data.mk (JStr "completed") JUndefined JUndefined JUndefined
                 JUndefined) (handleExecute 0 initialState)
              (list_elem_of_here _ _))
    as (Hc & _ & Hcompleted & _).
  destruct (terminal_event_stops_executing
              (Data.mk (JStr "error") JUndefined JUndefined
                 (JStr "terraform exited 1") JUndefined)
              (handleExecute 0 initialState)
              (list_elem_of_further _ _ _ (list_elem_of_here _ _)))
    as (He & _ & _ & Herror & _).
  destruct (terminal_event_stops_executing
              (Data.mk (JStr "stopped") JUndefined JUndefined JUndefined
                 JUndefined) (handleExecute 0 initialState)
              (list_elem_of_further _ _ _
                 (list_elem_of_further _ _ _ (list_elem_of_here _ _))))
    as (Hs & _ & _ & _ & Hstopped).
  split; [split; [exact Hc|exact (proj1 (Hcompleted eq_refl))]|].
  split; [split; [exact He|exact (Herror eq_refl)]|].
  split; [exact Hs|exact (Hstopped eq_refl)].
Defined.

(** ** Existing reports *)

Lemma filter_exists_nonempty (reports : list Report.t) :
  filter (λ r, Report.exists_ r = true) reports ≠ []
  ↔ ∃ r, r ∈ reports ∧ Report.exists_ r = true.
Proof.
  split.
  - intros Hne.
    destruct (filter _ reports) as [|r l] eqn:Hf; [done|].
    assert (r ∈ filter (λ r, Report.exists_ r = true) reports) as Hin
      by (rewrite Hf; apply list_elem_of_here).
    apply list_elem_of_filter in Hin as [He Hr]. by exists r.
  - intros (r & Hr & He) Hnil.
    assert (r ∈ filter (λ r, Report.exists_ r = true) reports) as Hin
      by by apply list_elem_of_filter.
    rewrite Hnil in Hin. by apply elem_of_nil in Hin.
Qed.

Lemma checkExistingReports_flag response st :
  hasExistingReports (checkExistingReports response st) = true
  ↔ hasExistingReports st = true ∨ lists_a_report response.
Proof.
  unfold checkExistingReports, lists_a_report.
  destruct response as [reports|detail].
  - pose proof (filter_exists_nonempty reports) as Hf.
    destruct (filter _ reports) as [|r l] eqn:Hl; simpl.
    + split; [by left|]. intros [H|(reports' & r & [= <-] & Hr)]; [done|].
      exfalso. apply Hf; [|done]. by exists r.
    + split; [|done]. intros _. right.
      destruct (proj1 Hf) as (r' & Hr'); [done|]. by exists reports, r'.
  - split; [by left|]. by intros [H|(reports & r & [=] & _)].
Qed.

Lemma loadReportsList_reports reports fetch st :
  ResultsStep.reports
    (ResultsStep.loadReportsList (Resolved reports) fetch st)
  = filter (λ r, Report.exists_ r = true) reports.
Proof.
  unfold ResultsStep.loadReportsList.
  destruct (List.find _ _); [|done]. by destruct (fetch _).
Qed.

(** C8, as stated, fails both ways: with an empty listing a 'completed'
    event sets the flag, and with a listed report a new run clears it. *)
Lemma reports_flag_not_from_listing :
  let completed :=
    Data.mk (JStr "completed") JUndefined JUndefined JUndefined JUndefined in
  let listed := [Report.mk "report_generator" "consolidated_report.md" true] in
  hasExistingReports
    (run [Mounted (Resolved []); ClickStart 0; Message completed] initialState)
  = true
  ∧ hasExistingReports
      (run [Mounted (Resolved listed); ClickRunAgain 0] initialState)
    = false
  ∧ lists_a_report (Resolved listed)
  ∧ ¬ lists_a_report (Resolved [])
  ∧ ¬ reports_flag_is_listing.
Proof.
  assert (¬ lists_a_report (Resolved [])) as Hnone.
  { intros (reports & r & [= <-] & Hr & _). by apply elem_of_nil in Hr. }
  split; [done|]. split; [done|].
  split; [eexists _, _; split; [done|]; split; [apply list_elem_of_here|done]|].
  split; [done|].
  intros H. apply Hnone.
  apply (H (Resolved [])
           [ClickStart 0;
            Message (Data.mk (JStr "completed") JUndefined JUndefined
                       JUndefined JUndefined)]).
  done.
Qed.

(** C8, amended. Where [hasExistingReports] is false, as on mount,
    [checkExistingReports] makes it true if and only if the listing request
    resolved with at least one entry whose [exists] flag is set, and
    [loadReportsList] lists exactly the entries whose flag is set, so the
    results view lists a report under the same condition.  Besides the
    listing the client keeps the flag itself: a 'completed' event sets it and
    [handleExecute] clears it, whatever the listing said. *)
Theorem existing_reports_flag (response : Response (list Report.t))
    (fetch : string → Response jsval) (data : Data.t) (now : Z) (st : State) :
  hasExistingReports st = false →
  Data.type data = JStr "completed" →
  let results :=
    ResultsStep.loadReportsList response fetch ResultsStep.initialState in
  (hasExistingReports (checkExistingReports response st) = true
   ↔ lists_a_report response)
  ∧ (ResultsStep.reports results ≠ [] ↔ lists_a_report response)
  ∧ (∀ reports r, response = Resolved reports →
       (r ∈ ResultsStep.reports results
        ↔ r ∈ reports ∧ Report.exists_ r = true))
  ∧ hasExistingReports (handleWebSocketMessage data st) = true
  ∧ hasExistingReports (handleExecute now (checkExistingReports response st))
    = false.
Proof.
  intros Hst Hty. cbv zeta. split; [|split; [|split; [|split]]].
  - rewrite checkExistingReports_flag, Hst.
    split; [by intros [?|?]|by right].
  - unfold lists_a_report. destruct response as [reports|detail].
    + rewrite loadReportsList_reports, filter_exists_nonempty.
      split.
      * intros (r & Hr & He). by exists reports, r.
      * intros (reports' & r & [= <-] & Hr & He). by exists r.
    + split; [done|]. by intros (reports & r & [=] & _).
  - intros reports r ->.
    rewrite loadReportsList_reports.
    rewrite (list_elem_of_filter (λ r, Report.exists_ r = true)).
    split; intros [? ?]; done.
  - unfold handleWebSocketMessage. by rewrite Hty.
  - done.
Qed.

Lemma existing_reports_flag_witness :
  let listed :=
    [Report.mk "terraform_reader" "terraform_analysis.md" false;
     Report.mk "report_generator" "consolidated_report.md" true] in
  let completed :=
    Data.mk (JStr "completed") JUndefined JUndefined JUndefined JUndefined in
  hasExistingReports initialState = false
  ∧ hasExistingReports (checkExistingReports (Resolved listed) initialState)
    = true
  ∧ hasExistingReports (handleWebSocketMessage completed initialState) = true
  ∧ hasExistingReports
      (handleExecute 0 (checkExistingReports (Resolved listed) initialState))
    = false.
Proof.
  split; [reflexivity|].
  destruct (existing_reports_flag
              (Resolved
                 [Report.mk "terraform_reader" "terraform_analysis.md" false;
                  Report.mk "report_generator" "consolidated_report.md" true])
              (λ _, Rejected JUndefined)
              (Data.mk (JStr "completed") JUndefined JUndefined JUndefined
                 JUndefined)
              0 initialState eq_refl eq_refl)
    as (Hflag & _ & _ & Hcompleted & Hreset).
  split; [|split; [exact Hcompleted|exact Hreset]].
  apply Hflag. eexists _, _. split; [reflexivity|].
  split; [apply list_elem_of_further, list_elem_of_here|reflexivity].
Defined.

(** ** Elapsed time *)

(** The interval of the [useEffect] shows the seconds since the start. *)
Lemma effect_timer_elapsed now t st :
  startTime st = Some t →
  elapsedTime (effect_timer now st) = ((now - t) / 1000)%Z.
Proof. unfold effect_timer. by intros ->. Qed.

(** The interval [handleExecute] creates subtracts a later reading of the
    clock from an earlier one: what it shows is never positive. *)
Lemma handleExecute_timer_not_positive t1 t2 st :
  (t1 ≤ t2)%Z → (elapsedTime (handleExecute_timer t1 t2 st) ≤ 0)%Z.
Proof. intros H. simpl. apply Z.div_le_upper_bound; lia. Qed.

(** That interval outlives a start request that resolves: only the [catch]
    block clears it. *)
Lemma handleExecute_timer_kept st :
  timers (dispatch StartResolved st) = timers st.
Proof. simpl. by destruct (awaiting st =? 0)%nat. Qed.

(** C5, on the code. A run started at clock reading 1000 is executing, with
    one interval of [handleExecute] alive, also once the start request has
    resolved.  When that interval fires at 6000 it sets [elapsedTime] to 0
    (to -1 when the clock advances between its two readings), where
    [floor((6000 - 1000) / 1000)] is 5, the value the [useEffect] interval
    sets. *)
Theorem handleExecute_interval_resets_elapsed :
  let st := run [ClickStart 1000; StartResolved] initialState in
  executing st = true
  ∧ startTime st = Some 1000%Z
  ∧ timers st = 1
  ∧ elapsedTime (dispatch (EffectTick 6000) st) = 5%Z
  ∧ elapsedTime (dispatch (IntervalTick 6000 6000) st) = 0%Z
  ∧ elapsedTime (dispatch (IntervalTick 6000 6001) st) = (-1)%Z
  ∧ elapsedTime (run [EffectTick 6000; IntervalTick 6000 6000] st) = 0%Z
  ∧ ((6000 - 1000) / 1000 = 5)%Z.
Proof. repeat split. Qed.

(** ** Starting a run *)

Lemma start_disabled_spec st :
  start_disabled st = true
  ↔ executing st = true
    ∨ (runTerraform (options st) = false ∧ runAgents (options st) = false).
Proof.
  unfold start_disabled.
  destruct (executing st), (runTerraform (options st)),
    (runAgents (options st)); simpl; intuition congruence.
Qed.

(** The start control does nothing while it is disabled, and a request it
    does send has a stage enabled. *)
Lemma start_control_guarded now st :
  (start_disabled st = true → dispatch (ClickStart now) st = st)
  ∧ (∀ req, PostStart req ∈ effects (dispatch (ClickStart now) st) →
       PostStart req ∈ effects st
       ∨ (executing st = false ∧ (run_terraform req || run_agents req) = true)).
Proof.
  split; simpl.
  - by intros ->.
  - intros req. destruct (start_disabled st) eqn:Hd; [by left|].
    destruct (allCompleted st); simpl.
    + intros [H|H%list_elem_of_singleton]%elem_of_app; [by left|done].
    + intros [H|H]%elem_of_app; [by left|]. right.
      apply elem_of_cons in H as [[=]|H%list_elem_of_singleton].
      injection H as ->. simpl.
      unfold start_disabled in Hd.
      destruct (executing st), (runTerraform (options st)),
        (runAgents (options st)); done.
Qed.

(** The [catch] block shows the error and leaves the executing state; the
    step list stays as [handleExecute] set it. *)
Lemma handleExecute_catch_spec detail st :
  let st' := handleExecute_catch detail st in
  executing st' = false
  ∧ error st' = (if truthy detail then detail
                 else JStr "Failed to start execution")
  ∧ executionSteps st' = executionSteps st
  ∧ effects st' = effects st.
Proof. done. Qed.

(** C4, on the code. Once both steps are reported completed (or once a
    late listing has set [hasExistingReports]) the client is still executing
    and the start control is disabled and does nothing, but [allCompleted]
    holds, so 'Run Again' is rendered, and it has no [disabled] attribute:
    clicking it runs [handleExecute], which sends a second start request and
    resets the step list. *)
Theorem run_again_while_executing :
  let st := steps_completed_state in
  let req := start_request initialOptions in
  executing st = true
  ∧ start_disabled st = true
  ∧ dispatch (ClickStart 5000) st = st
  ∧ allCompleted st = true
  ∧ effects st = [ConnectWebSocket; PostStart req]
  ∧ effects (dispatch (ClickRunAgain 5000) st)
    = [ConnectWebSocket; PostStart req; ConnectWebSocket; PostStart req]
  ∧ Step.status <$> executionSteps st = [JStr "completed"; JStr "completed"]
  ∧ Step.status <$> executionSteps (dispatch (ClickRunAgain 5000) st)
    = [JStr "pending"; JStr "pending"]
  ∧ executing late_listing_state = true
  ∧ allCompleted late_listing_state = true
  ∧ effects (dispatch (ClickRunAgain 5000) late_listing_state)
    = [ConnectWebSocket; PostStart req; ConnectWebSocket; PostStart req].
Proof. repeat split. Qed.

(** C10, on the code. With no stage enabled the start control is disabled
    and does nothing, but 'Run Again' (rendered because reports exist) and
    'Retry' (rendered because an error is shown) call [handleExecute]
    unguarded: the request sent has [run_terraform] and [run_agents] both
    false. *)
Theorem run_again_with_no_stage :
  start_disabled no_stage_state = true
  ∧ dispatch (ClickStart 0) no_stage_state = no_stage_state
  ∧ executing no_stage_state = false
  ∧ effects no_stage_state = []
  ∧ (run_terraform <$> last_request (dispatch (ClickRunAgain 0) no_stage_state))
    = Some false
  ∧ (run_agents <$> last_request (dispatch (ClickRunAgain 0) no_stage_state))
    = Some false
  ∧ start_disabled no_stage_error_state = true
  ∧ error no_stage_error_state = JStr "Execution already running"
  ∧ (run_terraform <$> last_request (dispatch (ClickRetry 9) no_stage_error_state))
    = Some false
  ∧ (run_agents <$> last_request (dispatch (ClickRetry 9) no_stage_error_state))
    = Some false.
Proof. repeat split. Qed.

(** * Further properties *)

(** ** What a sequence of events leaves in a step *)

Lemma last_status_event_names steps steps' i messages :
  Step.name <$> steps = Step.name <$> steps' →
  last_status_event steps i messages = last_status_event steps' i messages.
Proof.
  intros Hn. unfold last_status_event. f_equal.
  induction messages as [|d ds IH]; [done|].
  rewrite !filter_cons, IH, (findIndex_names d steps steps' Hn). done.
Qed.

Lemma last_status_event_cons steps i data messages :
  last_status_event steps i (data :: messages) =
  match last_status_event steps i messages with
  | Some d => Some d
  | None =>
      if decide (str_eq (Data.type data) "status" = true
                 ∧ findIndex (step_matches data) steps = Some i)
      then Some data else None
  end.
Proof.
  unfold last_status_event. rewrite filter_cons.
  destruct (decide _) as [H|H]; [|by destruct (last _)].
  destruct (filter _ messages) as [|d' l]; [done|].
  change (last (data :: d' :: l)) with (last (d' :: l)).
  destruct (last (d' :: l)) eqn:Hl; [done|].
  by apply last_None in Hl.
Qed.

Lemma on_step_message data s :
  Step.message (on_step data s) =
  if str_eq (Data.type data) "status" then Data.message data
  else Step.message s.
Proof.
  unfold on_step. destruct (str_eq (Data.type data) "status"); [done|].
  by destruct (str_eq (Data.type data) "log").
Qed.

(** X1. The status and the message of a step are overwritten, not
    accumulated: after any sequence of events they are those of the last
    status event addressed to the step, and what they were when no status
    event was addressed to it. *)
Theorem status_last_event_wins (messages : list Data.t) (st : State)
    (i : nat) (s : Step.t) :
  executionSteps st !! i = Some s →
  ∃ s', executionSteps (receive messages st) !! i = Some s'
    ∧ match last_status_event (executionSteps st) i messages with
      | Some data =>
          Step.status s' = Data.status data
          ∧ Step.message s' = Data.message data
      | None =>
          Step.status s' = Step.status s ∧ Step.message s' = Step.message s
      end.
Proof.
  revert st s. induction messages as [|d ds IH]; intros st s Hs.
  - by exists s.
  - pose proof (on_steps_lookup d _ _ _ Hs) as H1.
    rewrite <- handleWebSocketMessage_steps in H1.
    destruct (IH _ _ H1) as (s' & Hs' & Hlast). exists s'.
    split; [by rewrite receive_cons|].
    rewrite (last_status_event_names _ (executionSteps st)) in Hlast
      by (rewrite handleWebSocketMessage_steps; apply on_steps_names).
    rewrite last_status_event_cons.
    destruct (last_status_event (executionSteps st) i ds) as [d'|]; [done|].
    destruct Hlast as [Hst Hmsg]. rewrite Hst, Hmsg.
    destruct (decide (findIndex _ _ = Some i)) as [Hi|Hi].
    + rewrite on_step_status, on_step_message.
      destruct (str_eq (Data.type d) "status") eqn:Hty.
      * by rewrite decide_True.
      * rewrite decide_False; [done|]. by intros [? _].
    + rewrite decide_False; [done|]. by intros [_ ?].
Qed.

Lemma status_last_event_wins_witness :
  let st := handleExecute 0 initialState in
  let messages :=
    [Data.mk (JStr "status") (JStr "terraform") (JStr "running")
       (JStr "Exporting") JUndefined;
     Data.mk (JStr "status") (JStr "agents") (JStr "running")
       (JStr "Analysing") JUndefined;
     Data.mk (JStr "status") (JStr "terraform") (JStr "completed")
       (JStr "Export done") JUndefined;
     Data.mk (JStr "log") (JStr "terraform") (JStr "error")
       (JStr "a late line") JUndefined] in
  ∃ s', executionSteps (receive messages st) !! 0 = Some s'
        ∧ Step.status s' = JStr "completed"
        ∧ Step.message s' = JStr "Export done".
Proof.
  apply (status_last_event_wins
           [Data.mk (JStr "status") (JStr "terraform") (JStr "running")
              (JStr "Exporting") JUndefined;
            Data.mk (JStr "status") (JStr "agents") (JStr "running")
              (JStr "Analysing") JUndefined;
            Data.mk (JStr "status") (JStr "terraform") (JStr "completed")
              (JStr "Export done") JUndefined;
            Data.mk (JStr "log") (JStr "terraform") (JStr "error")
              (JStr "a late line") JUndefined]
           (handleExecute 0 initialState) 0
           (Step.mk "Terraform Export" (JStr "pending") (JStr "") [])).
  reflexivity.
Defined.

(** ** How events compose *)

Lemma on_steps_findIndex data data' steps :
  findIndex (step_matches data) (on_steps data' steps)
  = findIndex (step_matches data) steps.
Proof. apply findIndex_names, on_steps_names. Qed.

(** X2. Events addressed to different steps commute: whichever of the two
    arrives first, the step list ends up the same.  Only the order of the
    events addressed to one step matters. *)
Theorem events_for_different_steps_commute (d1 d2 : Data.t) (st : State) :
  findIndex (step_matches d1) (executionSteps st)
  ≠ findIndex (step_matches d2) (executionSteps st) →
  executionSteps (handleWebSocketMessage d1 (handleWebSocketMessage d2 st))
  = executionSteps (handleWebSocketMessage d2 (handleWebSocketMessage d1 st)).
Proof.
  intros Hne. rewrite !handleWebSocketMessage_steps.
  rewrite (on_steps_alter d1 (on_steps _ _)), (on_steps_alter d2 (on_steps _ _)).
  rewrite !on_steps_findIndex, !on_steps_alter.
  destruct (findIndex (step_matches d1) _) as [i|],
    (findIndex (step_matches d2) _) as [j|]; try done.
  apply list_alter_alter_ne. congruence.
Qed.

Lemma events_for_different_steps_commute_witness :
  let st := handleExecute 0 initialState in
  let d1 :=
    Data.mk (JStr "log") (JStr "terraform") JUndefined (JStr "exported jobs")
      JUndefined in
  let d2 :=
    Data.mk (JStr "status") (JStr "agents") (JStr "running")
      (JStr "Analysing") (JStr "reader: start") in
  findIndex (step_matches d1) (executionSteps st) = Some 0
  ∧ findIndex (step_matches d2) (executionSteps st) = Some 1
  ∧ executionSteps (handleWebSocketMessage d1 (handleWebSocketMessage d2 st))
    = executionSteps (handleWebSocketMessage d2 (handleWebSocketMessage d1 st)).
Proof.
  split; [reflexivity|]. split; [reflexivity|].
  apply events_for_different_steps_commute. discriminate.
Defined.

(** X3. A status event that carries no log line is idempotent: delivered
    twice in a row it leaves the component as after the first delivery. *)
Theorem status_event_idempotent (data : Data.t) (st : State) :
  Data.type data = JStr "status" →
  truthy (Data.log data) = false →
  handleWebSocketMessage data (handleWebSocketMessage data st)
  = handleWebSocketMessage data st.
Proof.
  intros Hty Hlog. unfold handleWebSocketMessage. rewrite Hty. simpl.
  unfold setExecutionSteps. simpl. f_equal.
  unfold status_updater.
  pose proof (on_steps_findIndex data data (executionSteps st)) as Hf.
  unfold on_steps in Hf. rewrite Hty in Hf. simpl in Hf.
  unfold status_updater in Hf.
  destruct (findIndex (step_matches data) (executionSteps st)) as [i|] eqn:Hi.
  - rewrite Hf, list_alter_alter_eq. apply list_alter_ext; [|done].
    intros s _. unfold status_update. simpl. by rewrite Hlog.
  - by rewrite Hi.
Qed.

Lemma status_event_idempotent_witness :
  let st := handleExecute 0 initialState in
  let data :=
    Data.mk (JStr "status") (JStr "agents") (JStr "running")
      (JStr "Analysing") JUndefined in
  handleWebSocketMessage data (handleWebSocketMessage data st)
  = handleWebSocketMessage data st.
Proof.
  apply status_event_idempotent; reflexivity.
Defined.

(** ** The checkboxes over a list *)

Lemma includes_false l x : includes l x = false ↔ x ∉ l.
Proof.
  rewrite <- includes_spec. destruct (includes l x); split; done.
Qed.

Lemma elem_of_toggle l x y :
  y ∈ toggle l x ↔ (y ≠ x ∧ y ∈ l) ∨ (y = x ∧ x ∉ l).
Proof.
  unfold toggle. destruct (includes l x) eqn:Hin.
  - apply includes_spec in Hin.
    rewrite (list_elem_of_filter (λ s, s ≠ x)). split.
    + intros [? ?]. by left.
    + intros [[? ?]|[-> ?]]; done.
  - apply includes_false in Hin. rewrite elem_of_app, list_elem_of_singleton.
    split.
    + intros [Hy| ->]; [left|by right]. split; [|done]. by intros ->.
    + intros [[_ ?]|[-> _]]; [by left|by right].
Qed.

Lemma NoDup_toggle l x : NoDup l → NoDup (toggle l x).
Proof.
  intros Hl. unfold toggle. destruct (includes l x) eqn:Hin.
  - by apply NoDup_filter.
  - apply includes_false in Hin. apply NoDup_app. split; [done|].
    split; [|apply NoDup_singleton].
    intros y Hy ->%list_elem_of_singleton. done.
Qed.

(** X4. A checkbox over a list of [options] flips its own entry and no
    other: after a click the list includes the entry exactly when it did not
    before, every other entry is in the list exactly when it was, and a list
    without repetitions stays so.  Ticking an entry that was absent and
    unticking it again gives the list back. *)
Theorem toggle_flips_one_entry (l : list string) (x : string) :
  NoDup l →
  includes (toggle l x) x = negb (includes l x)
  ∧ (∀ y, y ≠ x → (y ∈ toggle l x ↔ y ∈ l))
  ∧ NoDup (toggle l x)
  ∧ (includes l x = false → toggle (toggle l x) x = l).
Proof.
  intros Hl. split; [|split; [|split]].
  - destruct (includes l x) eqn:Hin; simpl.
    + apply includes_false. rewrite elem_of_toggle.
      apply includes_spec in Hin. by intros [[? _]|[_ ?]].
    + apply includes_spec. rewrite elem_of_toggle.
      apply includes_false in Hin. by right.
  - intros y Hy. rewrite elem_of_toggle. split.
    + by intros [[_ ?]|[? _]].
    + intros ?. by left.
  - by apply NoDup_toggle.
  - intros Hin. unfold toggle at 2. rewrite Hin.
    unfold toggle.
    assert (includes (l ++ [x]) x = true) as ->.
    { apply includes_spec, elem_of_app. right. apply list_elem_of_here. }
    rewrite filter_app, filter_cons_False, filter_nil, app_nil_r by (by intros ?).
    apply includes_false in Hin.
    induction l as [|a l IH]; [done|].
    apply not_elem_of_cons in Hin as [Hax Hin].
    apply NoDup_cons in Hl as [_ Hl].
    rewrite filter_cons_True by done. f_equal. by apply IH.
Qed.

Lemma toggle_flips_one_entry_witness :
  let l := ["terraform_reader"; "ucx_analyst"; "report_generator"] in
  NoDup l
  ∧ toggle l "ucx_analyst" = ["terraform_reader"; "report_generator"]
  ∧ includes (toggle l "ucx_analyst") "ucx_analyst" = false
  ∧ toggle (toggle ["compute"; "jobs"] "dlt") "dlt" = ["compute"; "jobs"].
Proof.
  assert (NoDup ["terraform_reader"; "ucx_analyst"; "report_generator"]) as Hl.
  { apply NoDup_ListNoDup. repeat constructor; simpl; intuition discriminate. }
  assert (NoDup ["compute"; "jobs"]) as Hl2.
  { apply NoDup_ListNoDup. repeat constructor; simpl; intuition discriminate. }
  split; [exact Hl|]. split; [reflexivity|].
  split.
  - exact (proj1 (toggle_flips_one_entry _ "ucx_analyst" Hl)).
  - apply (toggle_flips_one_entry _ "dlt" Hl2). reflexivity.
Defined.

(** ** What holds in every state the component can reach *)

Lemma run_snoc actions a st :
  run (actions ++ [a]) st = dispatch a (run actions st).
Proof. unfold run. by rewrite foldl_snoc. Qed.

Lemma run_cons a actions st :
  run (a :: actions) st = run actions (dispatch a st).
Proof. done. Qed.

(** Case analysis on every test an action makes. *)
Ltac dispatch_cases :=
  unfold handleWebSocketMessage, checkExistingReports, effect_timer,
    handleExecute_catch, handleExecute_timer;
  repeat match goal with
    | |- context [if ?b then _ else _] => destruct b eqn:?
    | |- context [match ?x with _ => _ end] => destruct x eqn:?
    end;
  simpl in *.

(** A property of the start state that every action preserves holds after
    every sequence of actions. *)
Lemma run_invariant (P : State → Prop) st actions :
  P st → (∀ a st', P st' → P (dispatch a st')) → P (run actions st).
Proof.
  intros H0 Hstep. revert st H0.
  induction actions as [|a actions IH]; intros st H0; [done|].
  rewrite run_cons. apply IH. by apply Hstep.
Qed.

Lemma handleWebSocketMessage_options data st :
  options (handleWebSocketMessage data st) = options st.
Proof.
  unfold handleWebSocketMessage. by repeat (destruct (str_eq _ _); [done|]).
Qed.

Lemma checkExistingReports_frame response st :
  let st' := checkExistingReports response st in
  options st' = options st ∧ executing st' = executing st
  ∧ executionSteps st' = executionSteps st ∧ error st' = error st
  ∧ timers st' = timers st ∧ awaiting st' = awaiting st
  ∧ effects st' = effects st.
Proof.
  unfold checkExistingReports. destruct response as [reports|?]; [|done].
  by destruct (0 <? _)%nat.
Qed.

(** X5. While a run is executing no action changes the options: every
    checkbox and the language menu are disabled, and neither a socket
    message, nor the end of a request, nor a timer, nor a new start touches
    them. *)
Theorem options_frozen_while_executing (a : Action) (st : State) :
  executing st = true →
  options (dispatch a st) = options st.
Proof.
  intros Hex. destruct a; simpl; rewrite ?Hex; simpl; try done.
  - apply checkExistingReports_frame.
  - by destruct (agent_locked id).
  - unfold start_disabled. by rewrite Hex.
  - by destruct (allCompleted st).
  - by destruct (truthy (error st)).
  - by destruct (truthy (error st)).
  - destruct (bool_decide _); [|done]. apply handleWebSocketMessage_options.
  - by destruct (awaiting st =? 0)%nat.
  - by destruct (awaiting st =? 0)%nat.
  - by destruct (timers st =? 0)%nat.
  - unfold effect_timer_live, effect_timer. rewrite Hex. simpl.
    destruct (startTime st) as [t|]; [|done]. by destruct (negb _).
Qed.

Lemma options_frozen_while_executing_witness :
  let st := handleExecute 0 initialState in
  executing st = true
  ∧ options (dispatch ToggleRunAgents st) = options st
  ∧ options (dispatch (ToggleAgent "ucx_analyst") st) = options st.
Proof.
  split; [reflexivity|].
  split; apply options_frozen_while_executing; reflexivity.
Defined.

(** X6. In every state reachable from the initial one, an error is never
    shown while a run is executing: [handleExecute] clears the error when it
    sets [executing], and whatever sets an error also leaves the executing
    state.  So 'Retry', rendered only beside an error, is never offered
    during a run. *)
Theorem no_error_while_executing (actions : list Action) :
  let st := run actions initialState in
  executing st = false ∨ error st = JNull.
Proof.
  apply (run_invariant (λ st, executing st = false ∨ error st = JNull));
    [by left|].
  intros a st Hst. destruct a; simpl; dispatch_cases; intuition congruence.
Qed.

Lemma agent_locked_unlocked id :
  agent_locked id = Some false → id = "terraform_reader" ∨ id = "ucx_analyst".
Proof.
  unfold agent_locked, agent_choices. cbn [List.find fst snd].
  destruct (String.eqb_spec "terraform_reader" id) as [<-|_]; [by left|].
  destruct (String.eqb_spec "ucx_analyst" id) as [<-|_]; [by right|].
  by destruct (String.eqb_spec "report_generator" id).
Qed.

Lemma dispatch_selectedAgents a st :
  selectedAgents (options (dispatch a st)) = selectedAgents (options st)
  ∨ ∃ id, (id = "terraform_reader" ∨ id = "ucx_analyst")
          ∧ selectedAgents (options (dispatch a st))
            = toggle (selectedAgents (options st)) id.
Proof.
  destruct a; simpl; try (dispatch_cases; by left).
  destruct (agent_locked id) as [[|]|] eqn:Hid; [| |by left].
  - rewrite orb_true_r. by left.
  - destruct (_ || _); [by left|]. right. exists id.
    split; [|done]. by apply agent_locked_unlocked.
Qed.

(** X7. In every state reachable from the initial one the selection holds
    'report_generator' (its box is locked), holds no id twice and holds only
    ids of the three agents offered; so [agentsToRun] is the selection
    itself: from the interface, [handleExecute] never has to append
    'report_generator'. *)
Theorem report_generator_always_selected (actions : list Action) :
  let o := options (run actions initialState) in
  "report_generator" ∈ selectedAgents o
  ∧ NoDup (selectedAgents o)
  ∧ (∀ id, id ∈ selectedAgents o →
       id ∈ ["terraform_reader"; "ucx_analyst"; "report_generator"])
  ∧ agentsToRun o = selectedAgents o.
Proof.
  cbv zeta.
  enough ("report_generator" ∈ selectedAgents (options (run actions initialState))
          ∧ NoDup (selectedAgents (options (run actions initialState)))
          ∧ (∀ id, id ∈ selectedAgents (options (run actions initialState)) →
               id ∈ ["terraform_reader"; "ucx_analyst"; "report_generator"]))
    as (H1 & H2 & H3).
  { repeat split; try done. unfold agentsToRun.
    by rewrite (proj2 (includes_spec _ _) H1). }
  apply (run_invariant (λ st,
    "report_generator" ∈ selectedAgents (options st)
    ∧ NoDup (selectedAgents (options st))
    ∧ (∀ id, id ∈ selectedAgents (options st) →
         id ∈ ["terraform_reader"; "ucx_analyst"; "report_generator"]))).
  - split; [|split].
    + simpl. rewrite !elem_of_cons. auto.
    + apply NoDup_ListNoDup. repeat constructor; simpl; intuition discriminate.
    + done.
  - intros a st (Hin & Hnd & Hsub).
    destruct (dispatch_selectedAgents a st) as [->|(id & Hid & ->)]; [done|].
    split; [|split].
    + apply elem_of_toggle. left. split; [|done]. by destruct Hid as [->| ->].
    + by apply NoDup_toggle.
    + intros y [[_ Hy]|[-> _]]%elem_of_toggle; [by apply Hsub|].
      rewrite !elem_of_cons. destruct Hid as [->| ->]; auto.
Qed.

Lemma dispatch_step_names a st :
  Step.name <$> executionSteps (dispatch a st) = Step.name <$> executionSteps st
  ∨ executionSteps (dispatch a st) = build_steps (options st).
Proof.
  destruct a; simpl; try (dispatch_cases; auto; fail).
  destruct (bool_decide _); [|by left]. left.
  rewrite handleWebSocketMessage_steps. apply on_steps_names.
Qed.

(** X8. In every state reachable from the initial one the step list is the
    export step, the analysis step, both in that order, or empty: there are
    at most two steps and no two of the same name, so an event is addressed
    to at most one step and [findIndex] finds the only step of that name. *)
Theorem step_names_invariant (actions : list Action) :
  let names := Step.name <$> executionSteps (run actions initialState) in
  names `sublist_of` ["Terraform Export"; "AI Agents Analysis"]
  ∧ NoDup names
  ∧ (length names ≤ 2)%nat.
Proof.
  cbv zeta.
  assert (NoDup ["Terraform Export"; "AI Agents Analysis"]) as Hnd.
  { apply NoDup_ListNoDup. repeat constructor; simpl; intuition discriminate. }
  enough (Step.name <$> executionSteps (run actions initialState)
          `sublist_of` ["Terraform Export"; "AI Agents Analysis"]) as Hs.
  { split; [done|]. split; [by eapply sublist_NoDup|].
    by apply sublist_length in Hs. }
  apply (run_invariant (λ st,
    Step.name <$> executionSteps st
    `sublist_of` ["Terraform Export"; "AI Agents Analysis"])).
  - apply sublist_nil_l.
  - intros a st Hst.
    destruct (dispatch_step_names a st) as [->| ->]; [done|].
    unfold build_steps.
    destruct (runTerraform (options st)), (runAgents (options st)); simpl;
      repeat constructor.
Qed.

(** ** Intervals *)

Lemma dispatch_timers a st :
  match a with StartRejected _ => False | _ => True end →
  timers st = starts st →
  timers (dispatch a st) = starts (dispatch a st).
Proof.
  unfold starts. intros Ha Hst. destruct a; simpl; try done;
    dispatch_cases; rewrite ?omap_app, ?length_app; simpl; lia.
Qed.

(** X9. The interval [handleExecute] creates is cleared by its [catch]
    block only.  Along any sequence of actions among which no start request
    is rejected (socket messages, 'completed', 'error' and 'stopped'
    included) the number of live intervals equals the number of start
    requests sent: each run leaves one more interval firing. *)
Theorem intervals_kept_without_rejection (actions : list Action) :
  no_rejection actions →
  timers (run actions initialState) = starts (run actions initialState).
Proof.
  intros Hno. assert (timers initialState = starts initialState) as H0 by done.
  revert H0. generalize initialState.
  induction Hno as [|a actions Ha _ IH]; intros st H0; [done|].
  rewrite run_cons. apply IH. by apply dispatch_timers.
Qed.

Lemma intervals_kept_without_rejection_witness :
  let completed :=
    Data.mk (JStr "completed") JUndefined JUndefined JUndefined JUndefined in
  let actions :=
    [ClickStart 0; StartResolved; Message completed; ClickRunAgain 9000;
     StartResolved; Message completed] in
  executing (run actions initialState) = false
  ∧ timers (run actions initialState) = 2
  ∧ timers (run actions initialState) = starts (run actions initialState).
Proof.
  split; [reflexivity|]. split; [reflexivity|].
  apply intervals_kept_without_rejection. repeat constructor.
Defined.

(** ** The lines shown *)

Lemma slice_last_snoc {A} n (l : list A) x :
  (0 < n)%nat →
  slice_last n (l ++ [x]) = slice_last (n - 1) l ++ [x].
Proof.
  intros Hn. unfold slice_last. rewrite length_app. simpl.
  rewrite drop_app_le by lia. do 2 f_equal. lia.
Qed.

(** X10. The log panel of a step shows [logs.slice(-20)]: always the end of
    the stored lines, in their order, all of them up to twenty and twenty
    beyond.  After a log event the new line is the last one shown, and the
    panel is the previous panel with the line added, cut to twenty. *)
Theorem shown_logs_window (data : Data.t) (s : Step.t) :
  shown_logs s `suffix_of` Step.logs s
  ∧ length (shown_logs s) = min 20 (length (Step.logs s))
  ∧ last (shown_logs (log_update data s)) = Some (Data.message data)
  ∧ shown_logs (log_update data s)
    = slice_last 20 (shown_logs s ++ [Data.message data]).
Proof.
  unfold shown_logs. split; [apply suffix_drop|]. split; [|split].
  - unfold slice_last. rewrite length_drop. lia.
  - simpl. rewrite slice_last_snoc by lia. apply last_snoc.
  - simpl. rewrite !slice_last_snoc by lia. f_equal.
    unfold slice_last. rewrite drop_drop, length_drop. f_equal. lia.
Qed.

(** ** From a completed run to the results *)

(** X11. After a 'completed' event the start control no longer starts a
    run: [allCompleted] holds, so a click sends no start request and leaves
    the client not executing; with a stage enabled the click calls [onNext]
    ('View Results'). *)
Theorem completed_then_view_results (data : Data.t) (now : Z) (st : State) :
  Data.type data = JStr "completed" →
  let st' := handleWebSocketMessage data st in
  allCompleted st' = true
  ∧ starts (dispatch (ClickStart now) st') = starts st
  ∧ executing (dispatch (ClickStart now) st') = false
  ∧ (runTerraform (options st) || runAgents (options st) = true →
     dispatch (ClickStart now) st' = emit CallOnNext st').
Proof.
  intros Hty. unfold handleWebSocketMessage. rewrite Hty. simpl.
  unfold allCompleted, start_disabled, starts. simpl.
  rewrite orb_true_r. split; [done|].
  destruct (runTerraform (options st)), (runAgents (options st)); simpl;
    rewrite ?omap_app, ?length_app, ?orb_true_r; simpl;
    repeat split; try done; lia.
Qed.

Lemma completed_then_view_results_witness :
  let st := handleExecute 0 initialState in
  let completed :=
    Data.mk (JStr "completed") JUndefined JUndefined JUndefined JUndefined in
  effects (dispatch (ClickStart 9) (handleWebSocketMessage completed st))
  = effects st ++ [ScheduleOnNext; CallOnNext].
Proof.
  cbv zeta.
  rewrite (proj2 (proj2 (proj2
    (completed_then_view_results
       (Data.mk (JStr "completed") JUndefined JUndefined JUndefined JUndefined)
       9 (handleExecute 0 initialState) eq_refl))) eq_refl).
  reflexivity.
Defined.

(** ** Rendering the status chips *)

Lemma chip_label_is_Some toUpperCase v :
  is_Some (chip_label toUpperCase v) ↔ ∃ s, v = JStr s.
Proof.
  destruct v; simpl; split; intros [x Hx]; try discriminate; by eexists.
Qed.

(** X12. [handleWebSocketMessage] stores the [status] of a status event
    unchecked, and the progress panel calls [toUpperCase] on it for the
    chip label.  When the chip labels could be computed before a status
    event addressed to one of the steps, they can be computed after it if
    and only if the event's [status] is a string: with an event without
    one, evaluating the label throws. *)
Theorem chip_labels_need_string_status (toUpperCase : string → string)
    (data : Data.t) (i : nat) (st : State) :
  executing st = true →
  Data.type data = JStr "status" →
  findIndex (step_matches data) (executionSteps st) = Some i →
  is_Some (chip_labels toUpperCase st) →
  is_Some (chip_labels toUpperCase (handleWebSocketMessage data st))
  ↔ ∃ s, Data.status data = JStr s.
Proof.
  intros Hex Hty Hi Hok. unfold chip_labels in *.
  assert (executing (handleWebSocketMessage data st) = true) as ->.
  { unfold handleWebSocketMessage. by rewrite Hty. }
  rewrite Hex in Hok. rewrite mapM_is_Some in *.
  rewrite handleWebSocketMessage_steps, on_steps_alter, Hi.
  destruct (findIndex_Some _ _ _ Hi) as (s & Hs & _).
  rewrite <- (chip_label_is_Some toUpperCase). split.
  - intros Hall.
    assert (alter (on_step data) i (executionSteps st) !! i
            = Some (on_step data s)) as Hl
      by (by rewrite list_lookup_alter_eq, Hs).
    pose proof (Forall_lookup_1 _ _ _ _ Hall Hl) as H. simpl in H.
    by rewrite on_step_status, Hty in H.
  - intros Hstr. apply Forall_alter; [done|].
    intros s' _. simpl. by rewrite on_step_status, Hty.
Qed.

Lemma chip_labels_need_string_status_witness :
  let st := handleExecute 0 initialState in
  let data :=
    Data.mk (JStr "status") (JStr "agents") JUndefined (JStr "Analysing")
      JUndefined in
  chip_labels id st = Some ["pending"; "pending"]
  ∧ chip_labels id (handleWebSocketMessage data st) = None.
Proof.
  split; [reflexivity|].
  destruct (chip_labels id
              (handleWebSocketMessage
                 (Data.mk (JStr "status") (JStr "agents") JUndefined
                    (JStr "Analysing") JUndefined)
                 (handleExecute 0 initialState))) as [l|] eqn:Hl;
    [|reflexivity].
  exfalso.
  destruct (proj1 (chip_labels_need_string_status id
                     (Data.mk (JStr "status") (JStr "agents") JUndefined
                        (JStr "Analysing") JUndefined)
                     1 (handleExecute 0 initialState)
                     eq_refl eq_refl eq_refl (mk_is_Some _ _ eq_refl)))
    as [s Hs].
  - rewrite Hl. by eexists.
  - discriminate Hs.
Defined.

(** ** The socket URL *)

Lemma strip_trailing_slash_cons c s :
  s ≠ "" → strip_trailing_slash (String c s) = String c (strip_trailing_slash s).
Proof. by destruct s. Qed.

Lemma strip_trailing_slash_snoc s :
  strip_trailing_slash (s +:+ "/") = s.
Proof.
  induction s as [|c s IH]; [done|].
  change (String c s +:+ "/") with (String c (s +:+ "/")).
  rewrite strip_trailing_slash_cons by (by destruct s). by rewrite IH.
Qed.

Lemma strip_trailing_slash_id s :
  last_char s ≠ Some "/"%char → strip_trailing_slash s = s.
Proof.
  induction s as [|c s IH]; [done|]. intros Hne.
  destruct s as [|c' s].
  - simpl. by destruct (Ascii.eqb_spec c "/"%char) as [->|].
  - rewrite strip_trailing_slash_cons by done. f_equal. by apply IH.
Qed.

(** X13. [createWebSocket] opens the socket to
    [scheme//host + base + '/' + path], where [scheme] is 'wss:' exactly
    for a page served over 'https:' and [base] is the page's path without
    its last slash (the two branches of the helper build the same string).
    A page path ending in one slash and the same path without it give the
    same URL. *)
Theorem createWebSocket_url (location : Location) (path base : string) :
  last_char base ≠ Some "/"%char →
  pathname location = base ∨ pathname location = base +:+ "/" →
  createWebSocket location path
  = (if String.eqb (protocol location) "https:" then "wss:" else "ws:")
    +:+ "//" +:+ host location +:+ base +:+ "/" +:+ path.
Proof.
  intros Hbase Hp. unfold createWebSocket.
  assert (strip_trailing_slash (pathname location) = base) as ->.
  { destruct Hp as [-> | ->]; [by apply strip_trailing_slash_id|].
    apply strip_trailing_slash_snoc. }
  destruct (String.eqb_spec base "") as [->|]; done.
Qed.

Lemma createWebSocket_url_witness :
  let proxied :=
    mkLocation "https:" "adb-1.azuredatabricks.net" "/driver-proxy/o/0/c/8002/" in
  let local := mkLocation "http:" "localhost:3002" "/" in
  createWebSocket proxied "ws/execution"
  = "wss://adb-1.azuredatabricks.net/driver-proxy/o/0/c/8002/ws/execution"
  ∧ createWebSocket local "ws/execution" = "ws://localhost:3002/ws/execution".
Proof.
  split.
  - apply (createWebSocket_url
             (mkLocation "https:" "adb-1.azuredatabricks.net"
                "/driver-proxy/o/0/c/8002/")
             "ws/execution" "/driver-proxy/o/0/c/8002").
    + discriminate.
    + by right.
  - apply (createWebSocket_url (mkLocation "http:" "localhost:3002" "/")
             "ws/execution" "").
    + discriminate.
    + by right.
Defined.

(** ** The results view *)

Lemma find_filter {A} (p q : A → bool) (l : list A) :
  List.find p (filter (λ x, q x = true) l) = List.find (λ x, q x && p x) l.
Proof.
  induction l as [|x l IH]; [done|].
  rewrite filter_cons. destruct (decide (q x = true)) as [Hq|Hq]; simpl.
  - rewrite Hq. simpl. by destruct (p x).
  - by destruct (q x).
Qed.

(** X14. [loadReportsList] always ends with [loading] false.  When the
    listing resolves, the view selects the first entry of the listing that
    exists and is the consolidated report, and that entry is among the
    listed reports; when there is none, the selection and the report shown
    stay what they were, listed or not.  When the listing is rejected, the
    reports, the selection and the report shown stay, and an error is
    shown. *)
Theorem loadReportsList_selection (listing : Response (list Report.t))
    (fetch : string → Response jsval) (st : ResultsStep.State) :
  let st' := ResultsStep.loadReportsList listing fetch st in
  ResultsStep.loading st' = false
  ∧ match listing with
    | Resolved all =>
        match
          List.find (λ r, Report.exists_ r
                          && String.eqb (Report.agent r) "report_generator") all
        with
        | Some consolidated =>
            ResultsStep.selectedReport st' = Some consolidated
            ∧ consolidated ∈ ResultsStep.reports st'
            ∧ st' = ResultsStep.loadReport
                      (fetch (Report.filename consolidated))
                      (ResultsStep.mkState
                         (filter (λ r, Report.exists_ r = true) all)
                         (Some consolidated) (ResultsStep.report st) true JNull)
        | None =>
            ResultsStep.selectedReport st' = ResultsStep.selectedReport st
            ∧ ResultsStep.report st' = ResultsStep.report st
            ∧ ResultsStep.error st' = JNull
        end
    | Rejected detail =>
        ResultsStep.reports st' = ResultsStep.reports st
        ∧ ResultsStep.selectedReport st' = ResultsStep.selectedReport st
        ∧ ResultsStep.report st' = ResultsStep.report st
        ∧ truthy (ResultsStep.error st') = true
    end.
Proof.
  cbv zeta. destruct listing as [all|detail]; simpl.
  - rewrite find_filter.
    destruct (List.find _ all) as [c|] eqn:Hc; simpl; [|done].
    apply find_some in Hc as [Hin [He Ha]%andb_true_iff].
    destruct (fetch (Report.filename c)); simpl;
      (split; [done|]); (split; [done|]);
      (split; [|done]);
      apply (list_elem_of_filter (λ r, Report.exists_ r = true));
      (split; [done|]); by apply list_elem_of_In.
  - repeat split. by destruct (truthy detail) eqn:Hd.
Qed.

(** ** The extension of an uploaded file *)

Lemma lastIndexOf_lower_bound s c : (-1 ≤ lastIndexOf s c)%Z.
Proof.
  induction s as [|a s IH]; simpl; [done|].
  destruct (0 <=? lastIndexOf s c)%Z eqn:H; [lia|].
  destruct (Ascii.eqb a c); lia.
Qed.

Lemma lastIndexOf_lacks s c : lacks c s → lastIndexOf s c = (-1)%Z.
Proof.
  induction s as [|a s IH]; simpl; [done|]. intros [Hne Hs].
  rewrite (IH Hs). simpl. by destruct (Ascii.eqb_spec a c).
Qed.

Lemma lastIndexOf_app base ext c :
  lacks c ext →
  lastIndexOf (base +:+ String c ext) c = Z.of_nat (String.length base).
Proof.
  intros Hext. induction base as [|a base IH].
  - simpl. rewrite (lastIndexOf_lacks _ _ Hext). simpl.
    by rewrite Ascii.eqb_refl.
  - change (String a base +:+ String c ext)
      with (String a (base +:+ String c ext)).
    cbn [lastIndexOf String.length]. rewrite IH.
    destruct (0 <=? Z.of_nat (String.length base))%Z eqn:H; lia.
Qed.

Lemma lastIndexOf_split s c :
  (0 ≤ lastIndexOf s c)%Z →
  ∃ base ext, s = base +:+ String c ext ∧ lacks c ext.
Proof.
  induction s as [|a s IH]; simpl; [lia|].
  destruct (0 <=? lastIndexOf s c)%Z eqn:H.
  - intros _. destruct IH as (base & ext & -> & Hext); [lia|].
    by exists (String a base), ext.
  - destruct (Ascii.eqb_spec a c) as [->|]; [|lia]. intros _.
    exists "", s. split; [done|].
    assert (lastIndexOf s c = (-1)%Z) as Hs
      by (pose proof (lastIndexOf_lower_bound s c); lia).
    clear H IH. induction s as [|b s IH]; simpl in *; [done|].
    destruct (0 <=? lastIndexOf s c)%Z eqn:H;
      [pose proof (lastIndexOf_lower_bound s c); lia|].
    destruct (Ascii.eqb_spec b c); [lia|].
    split; [done|]. apply IH. pose proof (lastIndexOf_lower_bound s c). lia.
Qed.

Lemma substring_app base s :
  substring (base +:+ s) (Z.of_nat (String.length base)) = s.
Proof.
  unfold substring. rewrite Z.max_r, Nat2Z.id by lia.
  induction base as [|a base IH]; simpl; [by destruct s|done].
Qed.

Lemma lower_char_dot c : lower_char c = "."%char ↔ c = "."%char.
Proof.
  split; [|by intros ->].
  unfold lower_char.
  destruct ((65 <=? nat_of_ascii c)%nat && (nat_of_ascii c <=? 90)%nat) eqn:H;
    [|done].
  apply andb_true_iff in H as [H1%Nat.leb_le H2%Nat.leb_le].
  intros Hc. apply (f_equal nat_of_ascii) in Hc.
  rewrite nat_ascii_embedding in Hc by lia.
  change (nat_of_ascii "."%char) with 46%nat in Hc. lia.
Qed.

Lemma includes_validExtensions e :
  includes validExtensions e = true
  ↔ ∃ e', e = String "."%char e' ∧ e' ∈ ["csv"; "xlsx"; "xls"].
Proof.
  rewrite includes_spec. unfold validExtensions.
  rewrite !elem_of_cons, elem_of_nil. split.
  - intros [->|[->|[->|[]]]]; eexists; (split; [reflexivity|]);
      rewrite !elem_of_cons; auto.
  - intros (e' & -> & He'). rewrite !elem_of_cons, elem_of_nil in He'.
    destruct He' as [->|[->|[->|[]]]]; auto.
Qed.

(** The extension is accepted exactly when the name ends in a dot followed
    by 'csv', 'xlsx' or 'xls' in any letter case, with no further dot. *)
Lemma fileExtension_accepts (filename : string) :
  includes validExtensions (fileExtension filename) = true
  ↔ ∃ base ext,
      filename = base +:+ "." +:+ ext
      ∧ lacks "."%char ext
      ∧ toLowerCase ext ∈ ["csv"; "xlsx"; "xls"].
Proof.
  rewrite includes_validExtensions. unfold fileExtension. split.
  - intros (e' & He & He').
    destruct (Z.le_gt_cases 0 (lastIndexOf filename "."%char)) as [H|H].
    + destruct (lastIndexOf_split _ _ H) as (base & ext & -> & Hext).
      exists base, ext. split; [done|]. split; [done|].
      rewrite (lastIndexOf_app _ _ _ Hext), substring_app in He.
      simpl in He. assert (toLowerCase ext = e') as -> by congruence. done.
    + exfalso. unfold substring in He. rewrite Z.max_l in He by lia.
      simpl in He. destruct filename as [|a filename]; [done|].
      simpl in He. assert (lower_char a = "."%char) as Ha by congruence.
      apply (proj1 (lower_char_dot a)) in Ha. subst a.
      cbn [lastIndexOf] in H. rewrite Ascii.eqb_refl in H.
      destruct (0 <=? lastIndexOf filename ".")%Z eqn:Hr;
        [apply Z.leb_le in Hr|]; lia.
  - intros (base & ext & -> & Hext & Hlow).
    change (base +:+ "." +:+ ext) with (base +:+ String "."%char ext).
    rewrite (lastIndexOf_app _ _ _ Hext), substring_app. simpl.
    by exists (toLowerCase ext).
Qed.

(** X15. [handleFileUpload] accepts a file exactly when its name ends in
    a dot followed by 'csv', 'xlsx' or 'xls' in any letter case, with no
    further dot after it: only the part from the last dot counts
    ('data.csv.zip' is refused) and a name without a dot is refused.  An
    accepted file sets [uploading], clears the error and the success message
    and sends the upload request; a refused one only sets the error
    'Invalid file type...' and sends nothing. *)
Theorem handleFileUpload_accepts (filename : string)
    (st : UCXUploadStep.State) :
  let st' := UCXUploadStep.handleFileUpload (Some filename) st in
  let accepted :=
    ∃ base ext,
      filename = base +:+ "." +:+ ext
      ∧ lacks "."%char ext
      ∧ toLowerCase ext ∈ ["csv"; "xlsx"; "xls"] in
  (accepted
   ∧ st' = UCXUploadStep.mkState (UCXUploadStep.files st) true JNull JNull
             (UCXUploadStep.requests st
              ++ [UCXUploadStep.PostUpload filename]))
  ∨ (¬ accepted
     ∧ st' = UCXUploadStep.mkState (UCXUploadStep.files st)
               (UCXUploadStep.uploading st)
               (JStr "Invalid file type. Please upload CSV or Excel files only.")
               (UCXUploadStep.success st) (UCXUploadStep.requests st)).
Proof.
  cbv zeta. rewrite <- fileExtension_accepts.
  unfold UCXUploadStep.handleFileUpload.
  destruct (includes validExtensions (fileExtension filename));
    [left|right]; done.
Qed.

(** ** The configuration step *)




(** ** The elapsed-time chip *)

Lemma padStart_seconds (n : nat) :
  (n < 60)%nat →
  padStart 2 "0"%char (pretty (Z.of_nat n))
  = String (pretty_N_char (N.of_nat (n / 10)))
      (String (pretty_N_char (N.of_nat (n mod 10))) "").
Proof.
  intros Hn. do 60 (destruct n as [|n]; [by vm_compute|]). lia.
Qed.

(** X17. For an elapsed time that is not negative the chip shows the whole
    minutes, a colon, and the remaining seconds as exactly two digits (tens,
    then units), a leading zero included.  For the -1 that the interval of
    [handleExecute] can set, the chip shows '-1:-1'. *)
Theorem elapsed_label_format (elapsedTime : Z) :
  (0 ≤ elapsedTime)%Z →
  let seconds := Z.to_nat (elapsedTime `mod` 60) in
  elapsed_label elapsedTime
  = pretty (elapsedTime / 60)%Z +:+ ":"
    +:+ String (pretty_N_char (N.of_nat (seconds / 10)))
          (String (pretty_N_char (N.of_nat (seconds mod 10))) "")
  ∧ elapsed_label (-1) = "-1:-1".
Proof.
  intros He. cbv zeta. split; [|by vm_compute].
  unfold elapsed_label. do 2 f_equal.
  rewrite Z.rem_mod_nonneg by lia.
  pose proof (Z.mod_pos_bound elapsedTime 60) as Hs.
  rewrite <- (Z2Nat.id (elapsedTime `mod` 60)) at 1 by lia.
  apply padStart_seconds. lia.
Qed.

Lemma elapsed_label_format_witness :
  (0 ≤ 187)%Z ∧ elapsed_label 187 = "3:07".
Proof.
  split; [lia|].
  rewrite (proj1 (elapsed_label_format 187 ltac:(lia))). by vm_compute.
Defined.

(** ** Retrying a run *)

Lemma receive_options messages st :
  options (receive messages st) = options st.
Proof.
  revert st. induction messages as [|d ds IH]; intros st; [done|].
  by rewrite receive_cons, IH, handleWebSocketMessage_options.
Qed.

Lemma last_request_handleExecute now st :
  last_request (handleExecute now st) = Some (start_request (options st)).
Proof.
  unfold last_request. simpl. rewrite omap_app. simpl.
  by rewrite (last_snoc _ (omap _ (effects st))).
Qed.

(** X18. 'Retry' sends the request of the run that failed again: whatever
    events arrived during a run, if they left an error shown, a click on
    'Retry' posts a start request equal to the one the run was started
    with, and the client is executing again with the error cleared. *)
Theorem retry_resends_request (now now' : Z) (messages : list Data.t)
    (st : State) :
  let failed := receive messages (handleExecute now st) in
  truthy (error failed) = true →
  last_request (handleExecute now st) = Some (start_request (options st))
  ∧ last_request (dispatch (ClickRetry now') failed)
    = Some (start_request (options st))
  ∧ executing (dispatch (ClickRetry now') failed) = true
  ∧ error (dispatch (ClickRetry now') failed) = JNull.
Proof.
  cbv zeta. intros Herr. split; [apply last_request_handleExecute|].
  simpl. rewrite Herr.
  pose proof (last_request_handleExecute now'
                (setError JNull (receive messages (handleExecute now st))))
    as Hlast.
  simpl in Hlast. rewrite receive_options in Hlast. done.
Qed.

Lemma retry_resends_request_witness :
  let messages :=
    [Data.mk (JStr "status") (JStr "terraform") (JStr "error")
       (JStr "Export failed") (JStr "exit status 1");
     Data.mk (JStr "error") JUndefined JUndefined (JStr "Terraform export failed")
       JUndefined] in
  let failed := receive messages (handleExecute 0 initialState) in
  error failed = JStr "Terraform export failed"
  ∧ last_request (dispatch (ClickRetry 9) failed)
    = Some (start_request initialOptions).
Proof.
  cbv zeta. split; [reflexivity|].
  apply (retry_resends_request 0 9
           [Data.mk (JStr "status") (JStr "terraform") (JStr "error")
              (JStr "Export failed") (JStr "exit status 1");
            Data.mk (JStr "error") JUndefined JUndefined
              (JStr "Terraform export failed") JUndefined]
           initialState).
  reflexivity.
Defined.
